(** * xt_expr: the micro-expression evaluator of xtables-addons

    A shallow embedding of [extensions/xt_expr.h] and of the evaluator in
    [extensions/xt_expr.c] ([xt_expr_rvalue], [xt_expr_descend]), followed by
    the properties of the evaluator.

    Conventions.
    - [uintxp_t] is [uint32_t] (the build without [BIG_BALLS]); a value of
      that type is a [Z] in [[0, 2^32)] and every operator writes its
      wrap-around out.
    - The expression block is a [list xt_expr_micro]; the walking pointer
      [mx] is an index into it, [mx + 1] is [S mx].
    - The C function has no error channel.  A read past the block and a
      division by zero are an [Abort]: the call does not return.  A shift
      by the full width or more, which C leaves undefined as well, returns
      like any other; its value is that of the shift instruction, which
      takes the count modulo the width.
    - A call that returns carries the trace of what it touched: the nodes it
      loaded and the registers it asked [xt_expr_rvalue] for, in order.
    - [xt_expr_mt] calls [xt_expr_descend] once and keeps the value; what it
      passes is a pointer into kernel memory, and the properties below are
      those of [xt_expr_descend] on a block, from its first node. *)

From Stdlib Require Import ZArith List Bool Lia.
Import ListNotations.

Local Open Scope Z_scope.

(** ** xt_expr.h *)

Definition uintxp_bits : Z := 32.
Definition uintxp_modulus : Z := 2 ^ uintxp_bits.

(** Conversion of a mathematical integer to [uintxp_t]. *)
Definition uintxp (x : Z) : Z := x mod uintxp_modulus.

Definition is_uintxp (x : Z) : Prop := 0 <= x < uintxp_modulus.

Definition XTEXPR_OP_NONE : Z := 0.
Definition XTEXPR_OP_ADD : Z := 1.
Definition XTEXPR_OP_SUB : Z := 2.
Definition XTEXPR_OP_MUL : Z := 3.
Definition XTEXPR_OP_DIV : Z := 4.
Definition XTEXPR_OP_MOD : Z := 5.
Definition XTEXPR_OP_NEG : Z := 6.
Definition XTEXPR_OP_LT : Z := 7.
Definition XTEXPR_OP_LE : Z := 8.
Definition XTEXPR_OP_EQ : Z := 9.
Definition XTEXPR_OP_NE : Z := 10.
Definition XTEXPR_OP_GT : Z := 11.
Definition XTEXPR_OP_GE : Z := 12.
Definition XTEXPR_OP_LNOT : Z := 13.
Definition XTEXPR_OP_LAND : Z := 14.
Definition XTEXPR_OP_LOR : Z := 15.
Definition XTEXPR_OP_SHL : Z := 16.
Definition XTEXPR_OP_SHR : Z := 17.
Definition XTEXPR_OP_NOT : Z := 18.
Definition XTEXPR_OP_AND : Z := 19.
Definition XTEXPR_OP_OR : Z := 20.
Definition XTEXPR_OP_XOR : Z := 21.
Definition XTEXPR_OP_ASG : Z := 22.
Definition XTEXPR_OP_OFS : Z := 23.
Definition XTEXPR_OP_DEREF : Z := 24.
Definition XTEXPR_OP_IF : Z := 25.
Definition XTEXPR_OP_CASE : Z := 26.

Definition XTEXPR_OPMASK : Z := 0xFF.
Definition XTEXPR_LHIMM : Z := Z.shiftl 1 6.
Definition XTEXPR_RHIMM : Z := Z.shiftl 1 7.

Definition XTEXPR_TYPE_NONE : Z := 0.
Definition XTEXPR_TYPE_SUB : Z := 1.
Definition XTEXPR_TYPE_THIS : Z := 2.
Definition XTEXPR_TYPE_NFMARK : Z := 3.
Definition XTEXPR_TYPE_CTMARK : Z := 4.
Definition XTEXPR_TYPE_SECMARK : Z := 5.
Definition XTEXPR_TYPE_L2PROTO : Z := 6.
Definition XTEXPR_TYPE_L3PROTO : Z := 7.
Definition XTEXPR_TYPE_L4PROTO : Z := 8.
Definition XTEXPR_TYPE_L4OFFSET : Z := 9.

(** [struct xt_expr_micro]: [op] is a [__u8], [lh] and [rh] are [__uxp_t]. *)
Record xt_expr_micro : Type := MX { op : Z; lh : Z; rh : Z }.

Definition micro_ok (m : xt_expr_micro) : Prop :=
  0 <= op m < 256 /\ is_uintxp (lh m) /\ is_uintxp (rh m).

(** ** The packet, as far as the evaluator reads it *)

(** [struct nf_conn]: only [mark] is read. *)
Record nf_conn : Type := CT { ct_mark : Z }.

(** [struct sk_buff]: [mark] ([__u32]), [protocol] ([__be16], as the host
    loads it) and the conntrack entry that [nf_ct_get] returns ([NULL] is
    [None]). *)
Record sk_buff : Type := SKB {
  skb_mark : Z;
  skb_protocol : Z;
  skb_nfct : option nf_conn
}.

Definition skb_ok (skb : sk_buff) : Prop :=
  is_uintxp (skb_mark skb) /\ 0 <= skb_protocol skb < 2 ^ 16 /\
  match skb_nfct skb with Some ct => is_uintxp (ct_mark ct) | None => True end.

Definition nf_ct_get (skb : sk_buff) : option nf_conn := skb_nfct skb.

(** Byte reversal of a 32-bit word. *)
Definition swab32 (x : Z) : Z :=
  Z.lor (Z.lor (Z.shiftl (Z.land x 0xFF) 24) (Z.shiftl (Z.land x 0xFF00) 8))
        (Z.lor (Z.land (Z.shiftr x 8) 0xFF00) (Z.land (Z.shiftr x 24) 0xFF)).

(** [ntohl]: the identity on a big-endian host, a byte reversal otherwise. *)
Definition ntohl (big_endian : bool) (x : Z) : Z :=
  if big_endian then uintxp x else swab32 x.

(** ** Outcomes of a call *)

(** What a call touches, in order: the node it loads and the packet fields
    it asks [xt_expr_rvalue] for. *)
Inductive event : Type :=
| RdNode (i : nat)
| RdField (reg : Z).

Inductive fault : Type :=
| OutOfBounds (i : nat)   (* load of a node past the end of the block *)
| DivideError.            (* [lh / rh] or [lh % rh] with [rh == 0] *)

Inductive outcome (A : Type) : Type :=
| Done (a : A) (tr : list event)
| Abort (f : fault)
| OutOfFuel.

Arguments Done {A} a tr.
Arguments Abort {A} f.
Arguments OutOfFuel {A}.

Definition ret {A} (a : A) : outcome A := Done a [].

Definition bind {A B} (m : outcome A) (k : A -> outcome B) : outcome B :=
  match m with
  | Done a t =>
      match k a with
      | Done b t' => Done b (t ++ t')
      | Abort f => Abort f
      | OutOfFuel => OutOfFuel
      end
  | Abort f => Abort f
  | OutOfFuel => OutOfFuel
  end.

Definition tell (e : event) : outcome unit := Done tt [e].

Declare Scope xp_scope.
Delimit Scope xp_scope with xp.
Notation "x <- m ;; k" := (bind m (fun x => k))
  (at level 61, m at next level, right associativity) : xp_scope.
Notation "' p <- m ;; k" := (bind m (fun x => match x with p => k end))
  (at level 61, p pattern, m at next level, right associativity) : xp_scope.
Notation "m ;;; k" := (bind m (fun _ => k))
  (at level 61, right associativity) : xp_scope.
Local Open Scope xp_scope.

(** ** xt_expr.c *)

Section Evaluator.

(** Byte order of the host the module is built for. *)
Variable big_endian : bool.

(** [xt_expr_rvalue(skb, reg)] *)
Definition xt_expr_rvalue (skb : sk_buff) (reg : Z) : Z :=
  if reg =? XTEXPR_TYPE_NFMARK then skb_mark skb
  else if reg =? XTEXPR_TYPE_CTMARK then
    match nf_ct_get skb with
    | Some ct => ct_mark ct
    | None => 0
    end
  else if reg =? XTEXPR_TYPE_L3PROTO then ntohl big_endian (skb_protocol skb)
  else 0.

(** A call of [xt_expr_rvalue], recorded. *)
Definition read_field (skb : sk_buff) (reg : Z) : outcome Z :=
  tell (RdField reg) ;;; ret (xt_expr_rvalue skb reg).

(** [*mx] *)
Definition load (blk : list xt_expr_micro) (mx : nat) : outcome xt_expr_micro :=
  match nth_error blk mx with
  | Some m => Done m [RdNode mx]
  | None => Abort (OutOfBounds mx)
  end.

(** [mx->op & flag], as a condition. *)
Definition flag_set (opbyte flag : Z) : bool := negb (Z.land opbyte flag =? 0).

(** The [switch (mx->op & XTEXPR_OPMASK)] of [xt_expr_descend]; [sel] is the
    selector, the result is what is stored in [ret].  The two shifts have
    no test of [rh]: they take the count modulo the width, as the shift
    instruction does. *)
Definition xt_expr_switch (sel lh rh : Z) : outcome Z :=
  if sel =? XTEXPR_OP_NONE then ret lh
  else if sel =? XTEXPR_OP_ADD then ret (uintxp (lh + rh))
  else if sel =? XTEXPR_OP_SUB then ret (uintxp (lh - rh))
  else if sel =? XTEXPR_OP_MUL then ret (uintxp (lh * rh))
  else if sel =? XTEXPR_OP_DIV then
    if rh =? 0 then Abort DivideError else ret (lh / rh)
  else if sel =? XTEXPR_OP_MOD then
    if rh =? 0 then Abort DivideError else ret (lh mod rh)
  else if sel =? XTEXPR_OP_NEG then ret (uintxp (- lh))
  else if sel =? XTEXPR_OP_LT then ret (Z.b2z (lh <? rh))
  else if sel =? XTEXPR_OP_LE then ret (Z.b2z (lh <=? rh))
  else if sel =? XTEXPR_OP_EQ then ret (Z.b2z (lh =? rh))
  else if sel =? XTEXPR_OP_NE then ret (Z.b2z (negb (lh =? rh)))
  else if sel =? XTEXPR_OP_GT then ret (Z.b2z (lh >? rh))
  else if sel =? XTEXPR_OP_GE then ret (Z.b2z (lh >=? rh))
  else if sel =? XTEXPR_OP_LNOT then ret (Z.b2z (lh =? 0))
  else if sel =? XTEXPR_OP_LAND then
    ret (Z.b2z (negb (lh =? 0) && negb (rh =? 0)))
  else if sel =? XTEXPR_OP_LOR then
    ret (Z.b2z (negb (lh =? 0) || negb (rh =? 0)))
  else if sel =? XTEXPR_OP_SHL then
    ret (uintxp (Z.shiftl lh (rh mod uintxp_bits)))
  else if sel =? XTEXPR_OP_SHR then
    ret (Z.shiftr lh (rh mod uintxp_bits))
  else if sel =? XTEXPR_OP_NOT then ret (uintxp (Z.lnot lh))
  else if sel =? XTEXPR_OP_AND then ret (Z.land lh rh)
  else if sel =? XTEXPR_OP_OR then ret (Z.lor lh rh)
  else if sel =? XTEXPR_OP_XOR then ret (Z.lxor lh rh)
  else ret 0.

(** The first [if]/[else if]/[else] chain of [xt_expr_descend]: the value of
    [lh] and the new [next].  [descend] is the recursive call on this packet
    and block. *)
Definition xt_expr_lh (descend : nat -> outcome (Z * nat)) (skb : sk_buff)
    (m : xt_expr_micro) (next : nat) : outcome (Z * nat) :=
  if flag_set (op m) XTEXPR_LHIMM then ret (lh m, next)
  else if lh m =? XTEXPR_TYPE_SUB then descend next
  else v <- read_field skb (rh m) ;; ret (v, next).

(** The second chain: the value of [rh] and the new [next]. *)
Definition xt_expr_rh (descend : nat -> outcome (Z * nat)) (skb : sk_buff)
    (m : xt_expr_micro) (next : nat) : outcome (Z * nat) :=
  if flag_set (op m) XTEXPR_RHIMM then ret (rh m, next)
  else if rh m =? XTEXPR_TYPE_SUB then descend next
  else v <- read_field skb (rh m) ;; ret (v, next).

(** Both chains in the order of the source, from [next = mx + 1]. *)
Definition xt_expr_operands (descend : nat -> outcome (Z * nat))
    (skb : sk_buff) (m : xt_expr_micro) (mx : nat) : outcome (Z * Z * nat) :=
  '(l, next) <- xt_expr_lh descend skb m (S mx) ;;
  '(r, next) <- xt_expr_rh descend skb m next ;;
  ret (l, r, next).

(** [xt_expr_descend(skb, mx, retp)]: the pair is [( *retp, returned pointer)].
    The recursion of the source is bounded here by [fuel];
    [descend_enough_fuel] shows that the length of the block is enough. *)
Fixpoint xt_expr_descend (fuel : nat) (skb : sk_buff)
    (blk : list xt_expr_micro) (mx : nat) {struct fuel} : outcome (Z * nat) :=
  match fuel with
  | O => OutOfFuel
  | S fuel' =>
      m <- load blk mx ;;
      '(l, r, next) <- xt_expr_operands (xt_expr_descend fuel' skb blk) skb m mx ;;
      res <- xt_expr_switch (Z.land (op m) XTEXPR_OPMASK) l r ;;
      ret (res, next)
  end.

(** The evaluator on a block, from the node at index [mx]. *)
Definition xt_expr_eval (skb : sk_buff) (blk : list xt_expr_micro) (mx : nat)
  : outcome (Z * nat) :=
  xt_expr_descend (S (length blk - mx)) skb blk mx.

End Evaluator.

(** ** Well-formed blocks *)

(** One slot in the dry run of the preorder walk: the operand-resolution
    rule decides whether the slot consumes the next nodes. *)
Definition walk_operand (walk : nat -> option nat) (imm : bool) (slot : Z)
    (next : nat) : option nat :=
  if imm then Some next
  else if slot =? XTEXPR_TYPE_SUB then walk next
  else Some next.

(** The dry run: node, then the left subtree if any, then the right subtree
    if any; no value is computed.  The source has no validator; this is the
    walk that the invariant of the format speaks of. *)
Fixpoint preorder_walk (fuel : nat) (blk : list xt_expr_micro) (i : nat)
    {struct fuel} : option nat :=
  match fuel with
  | O => None
  | S fuel' =>
      match nth_error blk i with
      | None => None
      | Some m =>
          match walk_operand (preorder_walk fuel' blk)
                  (flag_set (op m) XTEXPR_LHIMM) (lh m) (S i) with
          | None => None
          | Some c =>
              walk_operand (preorder_walk fuel' blk)
                (flag_set (op m) XTEXPR_RHIMM) (rh m) c
          end
      end
  end.

(** The walk from the first node ends exactly at the end of the buffer. *)
Definition well_formed (blk : list xt_expr_micro) : bool :=
  match preorder_walk (S (length blk)) blk 0 with
  | Some n => (n =? length blk)%nat
  | None => false
  end.


(** ** Predicates used in the proofs *)

(** [r1] is [r2] unless the fuel ran out. *)
Definition upto_fuel {A} (r1 r2 : outcome A) : Prop :=
  r1 <> OutOfFuel -> r1 = r2.

(** What the proofs below need of a recursive call: a call that returns,
    returns a pointer past its argument and inside or at the end of the
    block, and has loaded nodes between the two only. *)
Definition advances (blk : list xt_expr_micro)
    (d : nat -> outcome (Z * nat)) (from : nat) : Prop :=
  forall i v n tr, (from <= i)%nat -> d i = Done (v, n) tr ->
    (i < n <= length blk)%nat /\
    forall j, In (RdNode j) tr -> (i <= j < n)%nat.

(** Every value a recursive call returns is a [uintxp_t]. *)
Definition in_range (d : nat -> outcome (Z * nat)) : Prop :=
  forall i v n tr, d i = Done (v, n) tr -> is_uintxp v.

(** All 256 values of the [__u8] [op]. *)
Definition all_opbytes : list Z := map Z.of_nat (seq 0 256).

(** The value of [lh && rh] and of [lh || rh], as stored in a [uintxp_t]. *)
Definition logical (sel l r : Z) : Z :=
  if sel =? XTEXPR_OP_LAND
  then Z.b2z (negb (l =? 0) && negb (r =? 0))
  else Z.b2z (negb (l =? 0) || negb (r =? 0)).

(** ** Example blocks and packets *)

Definition op_imm (o : Z) : Z := Z.lor (Z.lor o XTEXPR_LHIMM) XTEXPR_RHIMM.

(** An operator with or without each of the two flags ORed onto it. *)
Definition op_flags (o : Z) (lhimm rhimm : bool) : Z :=
  Z.lor (Z.lor o (if lhimm then XTEXPR_LHIMM else 0))
        (if rhimm then XTEXPR_RHIMM else 0).

(** [{XTEXPR_OP_ADD | XTEXPR_LHIMM | XTEXPR_RHIMM, 4, 2}] *)
Definition blk_4_plus_2 : list xt_expr_micro :=
  [MX (op_imm XTEXPR_OP_ADD) 4 2].

(** (1+2)+(3+4), as the comment at the head of xt_expr.c encodes it. *)
Definition blk_1234 : list xt_expr_micro :=
  [MX XTEXPR_OP_ADD XTEXPR_TYPE_SUB XTEXPR_TYPE_SUB;
   MX (op_imm XTEXPR_OP_ADD) 1 2;
   MX (op_imm XTEXPR_OP_ADD) 3 4].

(** The packet mark plus one, with the field on the left. *)
Definition blk_mark_plus_1 : list xt_expr_micro :=
  [MX (Z.lor XTEXPR_OP_ADD XTEXPR_RHIMM) XTEXPR_TYPE_NFMARK 1].

(** A node that yields the field [reg]: both chains read the [rh] slot and
    [XTEXPR_OP_NONE] keeps the left value. *)
Definition mx_field (reg : Z) : xt_expr_micro := MX XTEXPR_OP_NONE reg reg.

(** [sel] applied to two subexpressions, the fields [a] and [b]. *)
Definition blk_fields (sel a b : Z) : list xt_expr_micro :=
  [MX sel XTEXPR_TYPE_SUB XTEXPR_TYPE_SUB; mx_field a; mx_field b].

(** mark 5, protocol 8, connection mark 9 *)
Definition skb_5_8_9 : sk_buff := SKB 5 8 (Some (CT 9)).

(** mark 1, no conntrack entry *)
Definition skb_untracked : sk_buff := SKB 1 8 None.

(** ** Traces and blocks inside blocks *)

(** The indices of the nodes a trace loads, in order. *)
Fixpoint node_reads (tr : list event) : list nat :=
  match tr with
  | [] => []
  | RdNode i :: tr' => i :: node_reads tr'
  | RdField _ :: tr' => node_reads tr'
  end.

(** An event of a block, seen from a block in which it starts [k] nodes
    later. *)
Definition shift_event (k : nat) (e : event) : event :=
  match e with
  | RdNode i => RdNode (k + i)
  | RdField reg => RdField reg
  end.

Definition shift_trace (k : nat) (tr : list event) : list event :=
  map (shift_event k) tr.

(** [blk'] holds, [k] nodes later, the nodes that [blk] holds from [i] up
    to [n]. *)
Definition same_window (blk blk' : list xt_expr_micro) (k i n : nat) : Prop :=
  forall j, (i <= j < n)%nat -> nth_error blk' (k + j) = nth_error blk j.

(** A node has a subexpression for its left or right operand. *)
Definition lh_is_sub (m : xt_expr_micro) : bool :=
  negb (flag_set (op m) XTEXPR_LHIMM) && (lh m =? XTEXPR_TYPE_SUB).

Definition rh_is_sub (m : xt_expr_micro) : bool :=
  negb (flag_set (op m) XTEXPR_RHIMM) && (rh m =? XTEXPR_TYPE_SUB).

(** * Properties *)

(** ** The monad *)

Lemma bind_Done {A B} (m : outcome A) (k : A -> outcome B) b t :
  bind m k = Done b t ->
  exists a t1 t2, m = Done a t1 /\ k a = Done b t2 /\ t = t1 ++ t2.
Proof.
  unfold bind. destruct m as [a t1| |]; try discriminate.
  destruct (k a) as [b' t2| |] eqn:E; try discriminate.
  intros [= <- <-]. now exists a, t1, t2.
Qed.

Lemma bind_ret_l {A B} (a : A) (k : A -> outcome B) : bind (ret a) k = k a.
Proof. unfold bind, ret. now destruct (k a). Qed.

Lemma bind_assoc {A B C} (m : outcome A) (k : A -> outcome B)
    (h : B -> outcome C) :
  bind (bind m k) h = bind m (fun a => bind (k a) h).
Proof.
  unfold bind. destruct m as [a t| |]; trivial.
  destruct (k a) as [b t'| |]; trivial.
  destruct (h b) as [c t''| |]; trivial.
  now rewrite app_assoc.
Qed.

Lemma bind_ext {A B} (m : outcome A) (k k' : A -> outcome B) :
  (forall a t, m = Done a t -> k a = k' a) -> bind m k = bind m k'.
Proof.
  intros H. unfold bind. destruct m as [a t| |]; trivial.
  now rewrite (H a t eq_refl).
Qed.

Lemma upto_fuel_refl {A} (r : outcome A) : upto_fuel r r.
Proof. now intros _. Qed.

Lemma upto_fuel_bind {A B} (m1 m2 : outcome A) (k1 k2 : A -> outcome B) :
  upto_fuel m1 m2 ->
  (forall a t, m1 = Done a t -> upto_fuel (k1 a) (k2 a)) ->
  upto_fuel (bind m1 k1) (bind m2 k2).
Proof.
  intros Hm Hk Hne. unfold upto_fuel in *.
  destruct m1 as [a t| |].
  - rewrite <- Hm by discriminate. unfold bind in *.
    specialize (Hk a t eq_refl).
    destruct (k1 a) as [b t'| |]; try (now rewrite <- Hk);
      now contradiction Hne.
  - now rewrite <- Hm.
  - now contradiction Hne.
Qed.

(** ** The walking pointer only moves forward *)

Section Cursor.

Variable big_endian : bool.
Variable skb : sk_buff.
Variable blk : list xt_expr_micro.

Lemma load_Done mx m tr :
  load blk mx = Done m tr ->
  nth_error blk mx = Some m /\ tr = [RdNode mx] /\ (mx < length blk)%nat.
Proof.
  unfold load. destruct (nth_error blk mx) as [m'|] eqn:E; try discriminate.
  intros [= <- <-]. repeat split; trivial.
  apply nth_error_Some. congruence.
Qed.

Lemma read_field_Done reg :
  read_field big_endian skb reg =
  Done (xt_expr_rvalue big_endian skb reg) [RdField reg].
Proof. reflexivity. Qed.

Lemma xt_expr_lh_Done d m next v n tr :
  xt_expr_lh big_endian d skb m next = Done (v, n) tr ->
  (n = next /\ forall j, ~ In (RdNode j) tr) \/ d next = Done (v, n) tr.
Proof.
  unfold xt_expr_lh.
  destruct (flag_set (op m) XTEXPR_LHIMM).
  - intros [= <- <- <-]. left. split; trivial. intros j [].
  - destruct (lh m =? XTEXPR_TYPE_SUB); [now right|].
    rewrite read_field_Done. cbn. intros [= <- <- <-]. left.
    split; trivial. intros j [H|[]]; discriminate.
Qed.

Lemma xt_expr_rh_Done d m next v n tr :
  xt_expr_rh big_endian d skb m next = Done (v, n) tr ->
  (n = next /\ forall j, ~ In (RdNode j) tr) \/ d next = Done (v, n) tr.
Proof.
  unfold xt_expr_rh.
  destruct (flag_set (op m) XTEXPR_RHIMM).
  - intros [= <- <- <-]. left. split; trivial. intros j [].
  - destruct (rh m =? XTEXPR_TYPE_SUB); [now right|].
    rewrite read_field_Done. cbn. intros [= <- <- <-]. left.
    split; trivial. intros j [H|[]]; discriminate.
Qed.

Lemma xt_expr_operands_Done d m mx l r n tr :
  xt_expr_operands big_endian d skb m mx = Done (l, r, n) tr ->
  exists n1 t1 t2,
    xt_expr_lh big_endian d skb m (S mx) = Done (l, n1) t1 /\
    xt_expr_rh big_endian d skb m n1 = Done (r, n) t2 /\
    tr = t1 ++ t2.
Proof.
  unfold xt_expr_operands. intros H.
  apply bind_Done in H as ([l' n1] & t1 & t2 & Hl & H & ->).
  apply bind_Done in H as ([r' n2] & t2' & t3 & Hr & H & ->).
  injection H as <- <- <- <-.
  exists n1, t1, t2'. rewrite app_nil_r. now repeat split.
Qed.

Lemma xt_expr_operands_advances d m mx l r n tr :
  (mx < length blk)%nat ->
  advances blk d (S mx) ->
  xt_expr_operands big_endian d skb m mx = Done (l, r, n) tr ->
  (mx < n <= length blk)%nat /\
  forall j, In (RdNode j) tr -> (mx < j < n)%nat.
Proof.
  intros Hmx Hd H.
  apply xt_expr_operands_Done in H as (n1 & t1 & t2 & Hl & Hr & ->).
  assert (H1 : (mx < n1 <= length blk)%nat /\
               forall j, In (RdNode j) t1 -> (mx < j < n1)%nat).
  { apply xt_expr_lh_Done in Hl as [[-> Hno]|Hl].
    - split; [lia|]. intros j Hj. now apply Hno in Hj.
    - apply Hd in Hl as [? Hin]; [|lia]. split; [lia|].
      intros j Hj. apply Hin in Hj. lia. }
  destruct H1 as [Hn1 Ht1].
  assert (H2 : (n1 <= n <= length blk)%nat /\
               forall j, In (RdNode j) t2 -> (n1 <= j < n)%nat).
  { apply xt_expr_rh_Done in Hr as [[-> Hno]|Hr].
    - split; [lia|]. intros j Hj. now apply Hno in Hj.
    - apply Hd in Hr as [? Hin]; [|lia]. split; [lia|].
      intros j Hj. apply Hin in Hj. lia. }
  destruct H2 as [Hn Ht2].
  split; [lia|]. intros j Hj. apply in_app_or in Hj as [Hj|Hj].
  - apply Ht1 in Hj. lia.
  - apply Ht2 in Hj. lia.
Qed.

Lemma xt_expr_switch_Done sel l r v tr :
  xt_expr_switch sel l r = Done v tr -> tr = [].
Proof.
  unfold xt_expr_switch, ret.
  repeat match goal with
         | |- context [if ?c then _ else _] => destruct c
         end; congruence.
Qed.

Lemma xt_expr_switch_fuel sel l r : xt_expr_switch sel l r <> OutOfFuel.
Proof.
  unfold xt_expr_switch, ret.
  repeat match goal with
         | |- context [if ?c then _ else _] => destruct c
         end; discriminate.
Qed.

Lemma xt_expr_descend_Done fuel mx v n tr :
  xt_expr_descend big_endian (S fuel) skb blk mx = Done (v, n) tr ->
  exists m l r t,
    nth_error blk mx = Some m /\ (mx < length blk)%nat /\
    xt_expr_operands big_endian (xt_expr_descend big_endian fuel skb blk)
      skb m mx = Done (l, r, n) t /\
    xt_expr_switch (Z.land (op m) XTEXPR_OPMASK) l r = Done v [] /\
    tr = RdNode mx :: t.
Proof.
  cbn [xt_expr_descend]. intros H.
  apply bind_Done in H as (m & t0 & t1 & Hm & H & ->).
  apply load_Done in Hm as (Hm & -> & Hlt).
  apply bind_Done in H as ([[l r] n'] & t2 & t3 & Hops & H & ->).
  apply bind_Done in H as (res & t4 & t5 & Hsw & H & ->).
  injection H as <- <- <-.
  pose proof (xt_expr_switch_Done _ _ _ _ _ Hsw) as ->.
  exists m, l, r, t2. rewrite !app_nil_r. now repeat split.
Qed.

Lemma xt_expr_descend_advances fuel :
  advances blk (xt_expr_descend big_endian fuel skb blk) 0.
Proof.
  induction fuel as [|fuel IH]; intros i v n tr _ H; [discriminate|].
  apply xt_expr_descend_Done in H as (m & l & r & t & Hm & Hlt & Hops & _ & ->).
  apply xt_expr_operands_advances in Hops as [Hn Ht]; trivial.
  - split; [lia|]. intros j [[= <-]|Hj]; [lia|]. apply Ht in Hj. lia.
  - intros i' v' n' tr' _ H. apply (IH i' v' n' tr'); [lia|exact H].
Qed.

End Cursor.

(** ** Fuel: the length of the block is enough *)

Section Fuel.

Variable big_endian : bool.
Variable skb : sk_buff.
Variable blk : list xt_expr_micro.

Lemma xt_expr_operands_upto_fuel d1 d2 m mx :
  (forall i, upto_fuel (d1 i) (d2 i)) ->
  upto_fuel (xt_expr_operands big_endian d1 skb m mx)
            (xt_expr_operands big_endian d2 skb m mx).
Proof.
  intros Hd. unfold xt_expr_operands.
  apply upto_fuel_bind.
  - unfold xt_expr_lh. destruct (flag_set (op m) XTEXPR_LHIMM);
      [apply upto_fuel_refl|].
    destruct (lh m =? XTEXPR_TYPE_SUB); [apply Hd|apply upto_fuel_refl].
  - intros [l n1] t _. apply upto_fuel_bind; [|intros; apply upto_fuel_refl].
    unfold xt_expr_rh. destruct (flag_set (op m) XTEXPR_RHIMM);
      [apply upto_fuel_refl|].
    destruct (rh m =? XTEXPR_TYPE_SUB); [apply Hd|apply upto_fuel_refl].
Qed.

Lemma descend_fuel_S fuel mx :
  upto_fuel (xt_expr_descend big_endian fuel skb blk mx) (xt_expr_descend big_endian (S fuel) skb blk mx).
Proof.
  revert mx.
  induction fuel as [|fuel IH]; intros mx; [now intros []|].
  cbn [xt_expr_descend].
  apply upto_fuel_bind; [apply upto_fuel_refl|]. intros m t _.
  apply upto_fuel_bind; [|intros; apply upto_fuel_refl].
  apply xt_expr_operands_upto_fuel. exact IH.
Qed.

Lemma descend_fuel_le fuel fuel' mx :
  (fuel <= fuel')%nat -> upto_fuel (xt_expr_descend big_endian fuel skb blk mx) (xt_expr_descend big_endian fuel' skb blk mx).
Proof.
  induction 1 as [|fuel' _ IH]; [apply upto_fuel_refl|].
  intros Hne. rewrite (IH Hne) in Hne |- *. now apply descend_fuel_S.
Qed.

Lemma xt_expr_operands_fuel d m mx :
  (mx < length blk)%nat ->
  advances blk d (S mx) ->
  (forall i, (mx < i)%nat -> d i <> OutOfFuel) ->
  xt_expr_operands big_endian d skb m mx <> OutOfFuel.
Proof.
  intros Hmx Hadv Hd. unfold xt_expr_operands.
  destruct (xt_expr_lh big_endian d skb m (S mx)) as [[l n1] t1| |] eqn:El.
  - assert (Hn1 : (mx < n1)%nat).
    { apply xt_expr_lh_Done in El as [[-> _]|El]; [lia|].
      apply Hadv in El; lia. }
    cbn [bind].
    destruct (xt_expr_rh big_endian d skb m n1) as [[r n2] t2| |] eqn:Er;
      cbn; try discriminate.
    revert Er. unfold xt_expr_rh.
    destruct (flag_set (op m) XTEXPR_RHIMM); [discriminate|].
    destruct (rh m =? XTEXPR_TYPE_SUB); [|discriminate].
    intros Er. now apply Hd in Er.
  - discriminate.
  - revert El. unfold xt_expr_lh.
    destruct (flag_set (op m) XTEXPR_LHIMM); [discriminate|].
    destruct (lh m =? XTEXPR_TYPE_SUB); [|discriminate].
    intros El. apply Hd in El; [easy|lia].
Qed.

(** The recursion of [xt_expr_descend] is bounded by the nodes that remain:
    with that much fuel, and one unit for the call itself, it never stops
    for want of fuel. *)
Lemma descend_enough_fuel fuel mx :
  (length blk - mx < fuel)%nat -> xt_expr_descend big_endian fuel skb blk mx <> OutOfFuel.
Proof.
  revert mx.
  induction fuel as [|fuel IH]; intros mx Hlen.
  - lia.
  - cbn [xt_expr_descend]. unfold load.
    destruct (nth_error blk mx) as [m|] eqn:Em; [|discriminate].
    assert (Hmx : (mx < length blk)%nat) by (apply nth_error_Some; congruence).
    cbn [bind].
    pose proof (xt_expr_operands_fuel
                  (xt_expr_descend big_endian fuel skb blk) m mx Hmx) as Hops.
    destruct (xt_expr_operands big_endian _ skb m mx) as [[[l r] n] t| |].
    + cbn [bind].
      pose proof (xt_expr_switch_fuel (Z.land (op m) XTEXPR_OPMASK) l r).
      destruct (xt_expr_switch (Z.land (op m) XTEXPR_OPMASK) l r);
        cbn [bind ret]; [discriminate|discriminate|now contradiction H].
    + cbn [bind]. discriminate.
    + exfalso. apply Hops; trivial.
      * intros i v n tr _ H.
        apply (xt_expr_descend_advances big_endian skb blk fuel i v n tr);
          [lia|exact H].
      * intros i Hi. apply IH. lia.
Qed.

Lemma descend_fuel_irrelevant fuel fuel' mx :
  (length blk - mx < fuel)%nat -> (length blk - mx < fuel')%nat ->
  xt_expr_descend big_endian fuel skb blk mx = xt_expr_descend big_endian fuel' skb blk mx.
Proof.
  intros H H'. destruct (Nat.le_ge_cases fuel fuel') as [Hle|Hle].
  - apply (descend_fuel_le _ _ mx Hle). now apply descend_enough_fuel.
  - symmetry. apply (descend_fuel_le _ _ mx Hle). now apply descend_enough_fuel.
Qed.

Lemma xt_expr_eval_fuel fuel mx :
  (length blk - mx < fuel)%nat ->
  xt_expr_descend big_endian fuel skb blk mx = xt_expr_eval big_endian skb blk mx.
Proof.
  intros H. unfold xt_expr_eval. apply descend_fuel_irrelevant; lia.
Qed.

(** The evaluator always comes to an end. *)
Lemma xt_expr_eval_total mx : xt_expr_eval big_endian skb blk mx <> OutOfFuel.
Proof. unfold xt_expr_eval. apply descend_enough_fuel. lia. Qed.

Lemma xt_expr_eval_advances : advances blk (xt_expr_eval big_endian skb blk) 0.
Proof.
  intros i v n tr _ H. unfold xt_expr_eval in H.
  eapply xt_expr_descend_advances; [|exact H]. lia.
Qed.

Lemma xt_expr_operands_ext d1 d2 m mx :
  advances blk d1 (S mx) ->
  (forall i, (mx < i)%nat -> d1 i = d2 i) ->
  xt_expr_operands big_endian d1 skb m mx =
  xt_expr_operands big_endian d2 skb m mx.
Proof.
  intros Hadv Hd. unfold xt_expr_operands.
  assert (El : xt_expr_lh big_endian d1 skb m (S mx) =
               xt_expr_lh big_endian d2 skb m (S mx)).
  { unfold xt_expr_lh. destruct (flag_set (op m) XTEXPR_LHIMM); trivial.
    destruct (lh m =? XTEXPR_TYPE_SUB); trivial. apply Hd. lia. }
  rewrite <- El. apply bind_ext. intros [l n1] t1 Hl.
  assert (Hn1 : (mx < n1)%nat).
  { apply xt_expr_lh_Done in Hl as [[-> _]|Hl]; [lia|].
    apply Hadv in Hl; lia. }
  f_equal. unfold xt_expr_rh.
  destruct (flag_set (op m) XTEXPR_RHIMM); trivial.
  destruct (rh m =? XTEXPR_TYPE_SUB); trivial. now apply Hd.
Qed.

(** The defining equation of [xt_expr_descend], free of fuel: the body of the
    C function, with the evaluator itself for the recursive calls. *)
Lemma xt_expr_eval_eq mx :
  xt_expr_eval big_endian skb blk mx =
  (m <- load blk mx ;;
   '(l, r, next) <- xt_expr_operands big_endian
                      (xt_expr_eval big_endian skb blk) skb m mx ;;
   res <- xt_expr_switch (Z.land (op m) XTEXPR_OPMASK) l r ;;
   ret (res, next)).
Proof.
  unfold xt_expr_eval at 1. cbn [xt_expr_descend].
  apply bind_ext. intros m t Hm. apply load_Done in Hm as (_ & _ & Hmx).
  f_equal. apply xt_expr_operands_ext.
  - intros i v n tr _ H.
    eapply xt_expr_descend_advances; [|exact H]. lia.
  - intros i Hi. apply xt_expr_eval_fuel. lia.
Qed.

End Fuel.

(** ** One node *)

Section Node.

Variable big_endian : bool.
Variable skb : sk_buff.
Variable blk : list xt_expr_micro.

(** A call on a node whose operands resolve: the value is the one the
    [switch] stores, the pointer returned is the one operand resolution
    reached. *)
Lemma xt_expr_eval_node mx m l r n tr :
  nth_error blk mx = Some m ->
  xt_expr_operands big_endian (xt_expr_eval big_endian skb blk) skb m mx = Done (l, r, n) tr ->
  xt_expr_eval big_endian skb blk mx =
  match xt_expr_switch (Z.land (op m) XTEXPR_OPMASK) l r with
  | Done res _ => Done (res, n) (RdNode mx :: tr)
  | Abort f => Abort f
  | OutOfFuel => OutOfFuel
  end.
Proof.
  intros Hm Hops. rewrite xt_expr_eval_eq.
  unfold load. rewrite Hm. cbn [bind]. rewrite Hops. cbn [bind].
  destruct (xt_expr_switch _ l r) as [res t| |] eqn:Hsw; cbn [bind ret]; trivial.
  apply xt_expr_switch_Done in Hsw as ->. cbn. now rewrite app_nil_r.
Qed.

(** A call on a node one of whose operands does not resolve ends the same
    way, whatever the operator. *)
Lemma xt_expr_eval_node_Abort mx m f :
  nth_error blk mx = Some m ->
  xt_expr_operands big_endian (xt_expr_eval big_endian skb blk) skb m mx = Abort f ->
  xt_expr_eval big_endian skb blk mx = Abort f.
Proof.
  intros Hm Hops. rewrite xt_expr_eval_eq.
  unfold load. rewrite Hm. cbn [bind]. now rewrite Hops.
Qed.

(** A field operand on the left: the register handed to [xt_expr_rvalue] is
    the [rh] slot of the node. *)
Lemma xt_expr_lh_field d m next :
  flag_set (op m) XTEXPR_LHIMM = false ->
  lh m <> XTEXPR_TYPE_SUB ->
  xt_expr_lh big_endian d skb m next =
  Done (xt_expr_rvalue big_endian skb (rh m), next) [RdField (rh m)].
Proof.
  intros Hf Hs. unfold xt_expr_lh. rewrite Hf.
  now destruct (Z.eqb_spec (lh m) XTEXPR_TYPE_SUB).
Qed.

Lemma xt_expr_rh_field d m next :
  flag_set (op m) XTEXPR_RHIMM = false ->
  rh m <> XTEXPR_TYPE_SUB ->
  xt_expr_rh big_endian d skb m next =
  Done (xt_expr_rvalue big_endian skb (rh m), next) [RdField (rh m)].
Proof.
  intros Hf Hs. unfold xt_expr_rh. rewrite Hf.
  now destruct (Z.eqb_spec (rh m) XTEXPR_TYPE_SUB).
Qed.

(** The body of [xt_expr_descend] on a node, written out: the left-hand
    chain, the right-hand chain from where the left one ended, the
    [switch]. *)
Lemma xt_expr_eval_unfolded mx m :
  nth_error blk mx = Some m ->
  xt_expr_eval big_endian skb blk mx =
  match (if flag_set (op m) XTEXPR_LHIMM then Done (lh m, S mx) []
         else if lh m =? XTEXPR_TYPE_SUB
              then xt_expr_eval big_endian skb blk (S mx)
              else Done (xt_expr_rvalue big_endian skb (rh m), S mx)
                        [RdField (rh m)])
  with
  | Done (l, n1) t1 =>
      match (if flag_set (op m) XTEXPR_RHIMM then Done (rh m, n1) []
             else if rh m =? XTEXPR_TYPE_SUB
                  then xt_expr_eval big_endian skb blk n1
                  else Done (xt_expr_rvalue big_endian skb (rh m), n1)
                            [RdField (rh m)])
      with
      | Done (r, n) t2 =>
          match xt_expr_switch (Z.land (op m) XTEXPR_OPMASK) l r with
          | Done v _ => Done (v, n) (RdNode mx :: t1 ++ t2)
          | Abort f => Abort f
          | OutOfFuel => OutOfFuel
          end
      | Abort f => Abort f
      | OutOfFuel => OutOfFuel
      end
  | Abort f => Abort f
  | OutOfFuel => OutOfFuel
  end.
Proof.
  intros Hm. rewrite xt_expr_eval_eq. unfold load. rewrite Hm. cbn [bind].
  unfold xt_expr_operands, xt_expr_lh, xt_expr_rh.
  rewrite !read_field_Done.
  assert (L : forall (x : outcome (Z * nat)) k,
             (match bind x k with
              | Done b t' => Done b ([RdNode mx] ++ t')
              | Abort f => Abort f
              | OutOfFuel => OutOfFuel
              end : outcome (Z * nat)) =
             match x with
             | Done a t1 =>
                 match k a with
                 | Done b t' => Done b (RdNode mx :: t1 ++ t')
                 | Abort f => Abort f
                 | OutOfFuel => OutOfFuel
                 end
             | Abort f => Abort f
             | OutOfFuel => OutOfFuel
             end).
  { intros x k. unfold bind. destruct x as [a t1| |]; trivial.
    now destruct (k a). }
  rewrite bind_assoc, L.
  destruct (flag_set (op m) XTEXPR_LHIMM);
    [|destruct (lh m =? XTEXPR_TYPE_SUB);
      [destruct (xt_expr_eval big_endian skb blk (S mx)) as [[l n1] t1| |];
       trivial|]];
    cbn [bind ret];
    (destruct (flag_set (op m) XTEXPR_RHIMM);
     [|destruct (rh m =? XTEXPR_TYPE_SUB);
       [match goal with
        | |- context [xt_expr_eval big_endian skb blk ?c] =>
            destruct (xt_expr_eval big_endian skb blk c) as [[r n] t2| |];
            trivial
        end|]]);
    cbn [bind ret];
    match goal with
    | |- context [xt_expr_switch ?a ?b ?c] =>
        let E := fresh in
        destruct (xt_expr_switch a b c) eqn:E; cbn [bind ret app]; trivial;
        apply xt_expr_switch_Done in E as ->;
        now rewrite ?app_nil_r
    end.
Qed.

End Node.

(** The [default] arm of [xt_expr_rvalue]. *)
Lemma xt_expr_rvalue_default big_endian skb reg :
  reg <> XTEXPR_TYPE_NFMARK ->
  reg <> XTEXPR_TYPE_CTMARK ->
  reg <> XTEXPR_TYPE_L3PROTO ->
  xt_expr_rvalue big_endian skb reg = 0.
Proof.
  intros H1 H2 H3. unfold xt_expr_rvalue.
  destruct (Z.eqb_spec reg XTEXPR_TYPE_NFMARK); [contradiction|].
  destruct (Z.eqb_spec reg XTEXPR_TYPE_CTMARK); [contradiction|].
  destruct (Z.eqb_spec reg XTEXPR_TYPE_L3PROTO); [contradiction|].
  reflexivity.
Qed.

(** A selector past [XTEXPR_OP_XOR] takes the [default] arm. *)
Lemma xt_expr_switch_default sel l r :
  XTEXPR_OP_XOR < sel -> xt_expr_switch sel l r = ret 0.
Proof.
  intros H. unfold xt_expr_switch.
  repeat match goal with
         | |- context [?a =? ?b] =>
             destruct (Z.eqb_spec a b) as [E|_];
             [exfalso; revert H; rewrite E; vm_compute; congruence|]
         end.
  reflexivity.
Qed.

(** The relational and the logical arms store 0 or 1. *)
Lemma xt_expr_switch_boolean sel l r :
  XTEXPR_OP_LT <= sel <= XTEXPR_OP_LOR ->
  xt_expr_switch sel l r = ret 0 \/ xt_expr_switch sel l r = ret 1.
Proof.
  intros Hsel. unfold xt_expr_switch.
  repeat match goal with
         | |- context [if ?a =? ?b then _ else _] => destruct (Z.eqb_spec a b)
         end;
    try match goal with
        | |- context [Z.b2z ?b] => destruct b; cbn; tauto
        end;
    exfalso;
    unfold XTEXPR_OP_NONE, XTEXPR_OP_ADD, XTEXPR_OP_SUB, XTEXPR_OP_MUL,
      XTEXPR_OP_DIV, XTEXPR_OP_MOD, XTEXPR_OP_NEG, XTEXPR_OP_LT, XTEXPR_OP_LE,
      XTEXPR_OP_EQ, XTEXPR_OP_NE, XTEXPR_OP_GT, XTEXPR_OP_GE, XTEXPR_OP_LNOT,
      XTEXPR_OP_LAND, XTEXPR_OP_LOR, XTEXPR_OP_SHL, XTEXPR_OP_SHR,
      XTEXPR_OP_NOT, XTEXPR_OP_AND, XTEXPR_OP_OR, XTEXPR_OP_XOR in *;
    lia.
Qed.

Lemma all_opbytes_spec o : 0 <= o < 256 -> In o all_opbytes.
Proof.
  intros H. unfold all_opbytes. apply in_map_iff.
  exists (Z.to_nat o). split; [lia|]. apply in_seq. lia.
Qed.

(** The mask keeps the two flag bits, so a flagged [op] never selects an
    arm other than [default]. *)
Lemma flagged_selector o :
  0 <= o < 256 ->
  flag_set o XTEXPR_LHIMM = true \/ flag_set o XTEXPR_RHIMM = true ->
  XTEXPR_OP_XOR < Z.land o XTEXPR_OPMASK.
Proof.
  intros Ho Hf.
  assert (All : forallb (fun o =>
            implb (flag_set o XTEXPR_LHIMM || flag_set o XTEXPR_RHIMM)
                  (XTEXPR_OP_XOR <? Z.land o XTEXPR_OPMASK)) all_opbytes = true)
    by (vm_compute; reflexivity).
  rewrite forallb_forall in All.
  specialize (All o (all_opbytes_spec o Ho)). cbv beta in All.
  apply Z.ltb_lt.
  destruct Hf as [Hf|Hf]; rewrite Hf in All;
    [|rewrite orb_true_r in All]; exact All.
Qed.

(** ** Values stay in [uintxp_t] *)

Lemma is_uintxp_log2 x : 0 <= x -> (x < uintxp_modulus <-> Z.log2 x < uintxp_bits).
Proof.
  intros Hx. destruct (Z.eq_dec x 0) as [->|Hne].
  - cbn. split; intros _; reflexivity.
  - unfold uintxp_modulus. apply Z.log2_lt_pow2. lia.
Qed.

Lemma is_uintxp_uintxp x : is_uintxp (uintxp x).
Proof. apply Z.mod_pos_bound. reflexivity. Qed.

Lemma is_uintxp_b2z b : is_uintxp (Z.b2z b).
Proof. destruct b; split; cbn; try lia; reflexivity. Qed.

Lemma is_uintxp_land a b : is_uintxp a -> 0 <= b -> is_uintxp (Z.land a b).
Proof.
  intros [Ha Ha'] Hb. split; [apply Z.land_nonneg; now left|].
  apply is_uintxp_log2; [apply Z.land_nonneg; now left|].
  apply is_uintxp_log2 in Ha'; trivial.
  pose proof (Z.log2_land a b Ha Hb). lia.
Qed.

Lemma is_uintxp_lor a b : is_uintxp a -> is_uintxp b -> is_uintxp (Z.lor a b).
Proof.
  intros [Ha Ha'] [Hb Hb']. split; [now apply Z.lor_nonneg|].
  apply is_uintxp_log2; [now apply Z.lor_nonneg|].
  apply is_uintxp_log2 in Ha', Hb'; trivial.
  rewrite Z.log2_lor by trivial. lia.
Qed.

Lemma is_uintxp_lxor a b : is_uintxp a -> is_uintxp b -> is_uintxp (Z.lxor a b).
Proof.
  intros [Ha Ha'] [Hb Hb']. split; [now apply Z.lxor_nonneg|].
  apply is_uintxp_log2; [now apply Z.lxor_nonneg|].
  apply is_uintxp_log2 in Ha', Hb'; trivial.
  pose proof (Z.log2_lxor a b Ha Hb). lia.
Qed.

Lemma is_uintxp_shiftr a n : is_uintxp a -> 0 <= n -> is_uintxp (Z.shiftr a n).
Proof.
  intros [Ha Ha'] Hn. rewrite Z.shiftr_div_pow2 by trivial.
  assert (0 < 2 ^ n) by (apply Z.pow_pos_nonneg; lia).
  split; [apply Z.div_pos; lia|].
  apply Z.le_lt_trans with a; trivial.
  apply Z.div_le_upper_bound; nia.
Qed.

Lemma is_uintxp_div a b : is_uintxp a -> 0 < b -> is_uintxp (a / b).
Proof.
  intros [Ha Ha'] Hb. split; [apply Z.div_pos; lia|].
  apply Z.le_lt_trans with a; trivial.
  apply Z.div_le_upper_bound; nia.
Qed.

Lemma is_uintxp_mod a b : 0 < b -> b < uintxp_modulus -> is_uintxp (a mod b).
Proof.
  intros Hb Hb'. pose proof (Z.mod_pos_bound a b Hb). unfold is_uintxp. lia.
Qed.

Lemma land_mask_bound a m k :
  0 <= a -> 0 <= k -> 0 <= m < 2 ^ k -> 0 <= Z.land a m < 2 ^ k.
Proof.
  intros Ha Hk [Hm Hm'].
  assert (H0 : 0 <= Z.land a m) by (apply Z.land_nonneg; now left).
  split; trivial.
  destruct (Z.eq_dec (Z.land a m) 0) as [->|Hne]; [lia|].
  apply Z.log2_lt_pow2; [lia|].
  assert (m <> 0) by (intros ->; now rewrite Z.land_0_r in Hne).
  apply (Z.log2_lt_pow2 m k) in Hm'; [|lia].
  pose proof (Z.log2_land a m Ha Hm). lia.
Qed.

Lemma shiftl_bound a k s :
  0 <= a < 2 ^ k -> 0 <= k -> 0 <= s -> k + s <= uintxp_bits ->
  is_uintxp (Z.shiftl a s).
Proof.
  intros [Ha Ha'] Hk Hs Hks. rewrite Z.shiftl_mul_pow2 by trivial.
  unfold is_uintxp, uintxp_modulus.
  assert (0 < 2 ^ s) by (apply Z.pow_pos_nonneg; lia).
  assert (2 ^ k * 2 ^ s <= 2 ^ uintxp_bits).
  { rewrite <- Z.pow_add_r by trivial. apply Z.pow_le_mono_r; lia. }
  nia.
Qed.

Lemma is_uintxp_swab32 x : 0 <= x -> is_uintxp (swab32 x).
Proof.
  intros Hx. unfold swab32.
  assert (Hs8 : 0 <= Z.shiftr x 8) by now apply Z.shiftr_nonneg.
  assert (Hs24 : 0 <= Z.shiftr x 24) by now apply Z.shiftr_nonneg.
  repeat apply is_uintxp_lor.
  - apply (shiftl_bound _ 8); [|lia|lia|unfold uintxp_bits; lia].
    apply land_mask_bound; [trivial|lia|split; [lia|reflexivity]].
  - apply (shiftl_bound _ 16); [|lia|lia|unfold uintxp_bits; lia].
    apply land_mask_bound; [trivial|lia|split; [lia|reflexivity]].
  - apply (land_mask_bound _ _ 32); [trivial|lia|split; [lia|reflexivity]].
  - apply (land_mask_bound _ _ 32); [trivial|lia|split; [lia|reflexivity]].
Qed.

Lemma xt_expr_rvalue_uintxp big_endian skb reg :
  skb_ok skb -> is_uintxp (xt_expr_rvalue big_endian skb reg).
Proof.
  intros (Hm & Hp & Hc). unfold xt_expr_rvalue, nf_ct_get.
  assert (Z0 : is_uintxp 0) by (split; cbn; [lia|reflexivity]).
  destruct (reg =? XTEXPR_TYPE_NFMARK); trivial.
  destruct (reg =? XTEXPR_TYPE_CTMARK); [now destruct (skb_nfct skb)|].
  destruct (reg =? XTEXPR_TYPE_L3PROTO); trivial.
  unfold ntohl. destruct big_endian;
    [apply is_uintxp_uintxp|apply is_uintxp_swab32; lia].
Qed.

Lemma xt_expr_switch_uintxp sel l r v tr :
  is_uintxp l -> is_uintxp r ->
  xt_expr_switch sel l r = Done v tr -> is_uintxp v.
Proof.
  intros Hl Hr. unfold xt_expr_switch, ret.
  repeat match goal with
         | |- context [if ?a =? ?b then _ else _] =>
             destruct (Z.eqb_spec a b)
         | |- context [if ?a <? ?b then _ else _] =>
             destruct (Z.ltb_spec a b)
         end;
    intros [= <- _];
    auto using is_uintxp_uintxp, is_uintxp_b2z, is_uintxp_lor, is_uintxp_lxor.
  - apply is_uintxp_div; trivial. destruct Hr; lia.
  - apply is_uintxp_mod; destruct Hr; lia.
  - apply is_uintxp_shiftr; trivial.
    pose proof (Z.mod_pos_bound r uintxp_bits eq_refl). lia.
  - apply is_uintxp_land; trivial. destruct Hr; lia.
  - split; cbn; [lia|reflexivity].
Qed.

Section Range.

Variable big_endian : bool.
Variable skb : sk_buff.
Variable blk : list xt_expr_micro.

Hypothesis skb_in_range : skb_ok skb.
Hypothesis blk_in_range : Forall micro_ok blk.

Lemma xt_expr_operands_uintxp d m mx l r n tr :
  micro_ok m -> in_range d ->
  xt_expr_operands big_endian d skb m mx = Done (l, r, n) tr ->
  is_uintxp l /\ is_uintxp r.
Proof.
  intros (_ & Hlh & Hrh) Hd H.
  apply xt_expr_operands_Done in H as (n1 & t1 & t2 & Hl & Hr & _).
  split.
  - revert Hl. unfold xt_expr_lh.
    destruct (flag_set (op m) XTEXPR_LHIMM); [now intros [= <- _ _]|].
    destruct (lh m =? XTEXPR_TYPE_SUB); [apply Hd|].
    rewrite read_field_Done. cbn. intros [= <- _ _].
    now apply xt_expr_rvalue_uintxp.
  - revert Hr. unfold xt_expr_rh.
    destruct (flag_set (op m) XTEXPR_RHIMM); [now intros [= <- _ _]|].
    destruct (rh m =? XTEXPR_TYPE_SUB); [apply Hd|].
    rewrite read_field_Done. cbn. intros [= <- _ _].
    now apply xt_expr_rvalue_uintxp.
Qed.

Lemma xt_expr_descend_uintxp fuel :
  in_range (xt_expr_descend big_endian fuel skb blk).
Proof.
  induction fuel as [|fuel IH]; intros i v n tr H; [discriminate|].
  apply xt_expr_descend_Done in H as (m & l & r & t & Hm & _ & Hops & Hsw & _).
  assert (Hok : micro_ok m).
  { pose proof (proj1 (Forall_forall _ _) blk_in_range) as Hall.
    apply Hall. eapply nth_error_In, Hm. }
  apply xt_expr_operands_uintxp in Hops as [Hl Hr]; trivial.
  exact (xt_expr_switch_uintxp _ _ _ _ _ Hl Hr Hsw).
Qed.

(** On a packet and a block whose fields are in range, every value the
    evaluator returns is a [uintxp_t]. *)
Lemma xt_expr_eval_uintxp mx v n tr :
  xt_expr_eval big_endian skb blk mx = Done (v, n) tr -> is_uintxp v.
Proof. apply xt_expr_descend_uintxp. Qed.

End Range.

Section Walk.

Variable big_endian : bool.
Variable skb : sk_buff.
Variable blk : list xt_expr_micro.






Lemma xt_expr_lh_walk d w m next l c t :
  (forall i v n tr, d i = Done (v, n) tr -> w i = Some n) ->
  xt_expr_lh big_endian d skb m next = Done (l, c) t ->
  walk_operand w (flag_set (op m) XTEXPR_LHIMM) (lh m) next = Some c.
Proof.
  intros Hd. unfold walk_operand, xt_expr_lh.
  destruct (flag_set (op m) XTEXPR_LHIMM); [now intros [= _ <- _]|].
  destruct (lh m =? XTEXPR_TYPE_SUB); [apply Hd|].
  rewrite read_field_Done. cbn. now intros [= _ <- _].
Qed.

Lemma xt_expr_rh_walk d w m next r c t :
  (forall i v n tr, d i = Done (v, n) tr -> w i = Some n) ->
  xt_expr_rh big_endian d skb m next = Done (r, c) t ->
  walk_operand w (flag_set (op m) XTEXPR_RHIMM) (rh m) next = Some c.
Proof.
  intros Hd. unfold walk_operand, xt_expr_rh.
  destruct (flag_set (op m) XTEXPR_RHIMM); [now intros [= _ <- _]|].
  destruct (rh m =? XTEXPR_TYPE_SUB); [apply Hd|].
  rewrite read_field_Done. cbn. now intros [= _ <- _].
Qed.

(** Conversely, where the evaluator returns [n], the dry run ends at [n]:
    the dry run fails on no block that the evaluator gets through. *)
Lemma descend_preorder_walk fuel i v n tr :
  xt_expr_descend big_endian fuel skb blk i = Done (v, n) tr ->
  preorder_walk fuel blk i = Some n.
Proof.
  revert i v n tr. induction fuel as [|fuel IH]; intros i v n tr H;
    [discriminate|].
  apply xt_expr_descend_Done in H as (m & l & r & t & Hm & _ & Hops & _ & _).
  apply xt_expr_operands_Done in Hops as (n1 & t1 & t2 & Hl & Hr & _).
  cbn [preorder_walk]. rewrite Hm.
  rewrite (xt_expr_lh_walk _ (preorder_walk fuel blk) _ _ _ _ _ IH Hl).
  exact (xt_expr_rh_walk _ (preorder_walk fuel blk) _ _ _ _ _ IH Hr).
Qed.

Lemma well_formed_complete v tr :
  xt_expr_eval big_endian skb blk 0 = Done (v, length blk) tr ->
  well_formed blk = true.
Proof.
  intros H. rewrite <- (xt_expr_eval_fuel _ _ _ (S (length blk))) in H by lia.
  apply descend_preorder_walk in H. unfold well_formed. rewrite H.
  apply Nat.eqb_refl.
Qed.

End Walk.

(** ** The claims *)

(** C1 (code defect).  The claim: a field operand on the left is read from
    the identifier in the node's [lh] slot, so that "mark + 1" with the mark
    5 in the [lh] slot evaluates to 6.  The code hands the [rh] slot to
    [xt_expr_rvalue] in the left-hand chain: on a packet whose mark is 5 the
    block [{ADD|RHIMM, NFMARK, 1}] reads register 1 and yields 0, and the
    unflagged [{ADD, NFMARK, NONE}] reads register 0 twice and yields 0,
    where the left-hand field alone is 5. *)
Theorem C1_lh_field_read_takes_rh_slot :
  forall big_endian proto nfct,
    let skb := SKB 5 proto nfct in
    xt_expr_rvalue big_endian skb XTEXPR_TYPE_NFMARK = 5 /\
    xt_expr_eval big_endian skb blk_mark_plus_1 0 =
      Done (0, 1%nat) [RdNode 0; RdField 1] /\
    xt_expr_eval big_endian skb
      [MX XTEXPR_OP_ADD XTEXPR_TYPE_NFMARK XTEXPR_TYPE_NONE] 0 =
      Done (0, 1%nat) [RdNode 0; RdField 0; RdField 0].
Proof. intros. repeat split; reflexivity. Qed.

(** C2 (code defect).  The claim: the block for (1+2)+(3+4) yields 10.  The
    walk is left to right and ends at index 3, but both inner nodes carry
    immediate flags, their selector is 193 and they yield 0: the block
    yields 0 for every packet. *)
Theorem C2_nested_block_yields_zero :
  forall big_endian skb,
    xt_expr_eval big_endian skb blk_1234 0 =
    Done (0, 3%nat) [RdNode 0; RdNode 1; RdNode 2].
Proof. intros. reflexivity. Qed.

(** C3 (code defect).  The claim: [{ADD|LHIMM|RHIMM, 4, 2}] evaluates to 6.
    [XTEXPR_OPMASK] is [0xFF] and keeps the flag bits, the selector is 193,
    the [default] arm stores 0. *)
Theorem C3_immediate_add_yields_zero :
  forall big_endian skb,
    Z.land (op_imm XTEXPR_OP_ADD) XTEXPR_OPMASK = 193 /\
    xt_expr_eval big_endian skb blk_4_plus_2 0 = Done (0, 1%nat) [RdNode 0].
Proof. intros. split; reflexivity. Qed.

(** Every node with an immediate flag yields 0, whatever its operator and
    operands. *)
Lemma flagged_node_yields_zero big_endian skb blk mx m l r n tr :
  nth_error blk mx = Some m ->
  0 <= op m < 256 ->
  flag_set (op m) XTEXPR_LHIMM = true \/ flag_set (op m) XTEXPR_RHIMM = true ->
  xt_expr_operands big_endian (xt_expr_eval big_endian skb blk) skb m mx =
    Done (l, r, n) tr ->
  xt_expr_eval big_endian skb blk mx = Done (0, n) (RdNode mx :: tr).
Proof.
  intros Hm Hop Hf Hops.
  rewrite (xt_expr_eval_node _ _ _ _ _ _ _ _ _ Hm Hops).
  rewrite xt_expr_switch_default; [reflexivity|].
  now apply flagged_selector.
Qed.




(** C5.  [LAND] and [LOR] do not short-circuit.  On a node whose operator
    is [XTEXPR_OP_LAND] or [XTEXPR_OP_LOR], with or without immediate
    flags, the call is: the left-hand operand (the slot itself under
    [XTEXPR_LHIMM], else the call on the next node where the [lh] slot is
    [XTEXPR_TYPE_SUB], else a register), then the right-hand operand in the
    same way from where the left one ended, whatever the left value is, then
    the value.  The pointer returned and the trace are those of the two
    operands.  A subexpression on the right is evaluated and its nodes
    consumed for every left value, and a subexpression on either side that
    does not return ends the call. *)
Theorem C5_land_lor_resolve_both big_endian skb blk mx m o fl fr :
  nth_error blk mx = Some m ->
  o = XTEXPR_OP_LAND \/ o = XTEXPR_OP_LOR ->
  op m = op_flags o fl fr ->
  let eval := xt_expr_eval big_endian skb blk in
  let LH :=
    if fl then Done (lh m, S mx) []
    else if lh m =? XTEXPR_TYPE_SUB then eval (S mx)
    else Done (xt_expr_rvalue big_endian skb (rh m), S mx) [RdField (rh m)] in
  let RH := fun n1 : nat =>
    if fr then Done (rh m, n1) []
    else if rh m =? XTEXPR_TYPE_SUB then eval n1
    else Done (xt_expr_rvalue big_endian skb (rh m), n1) [RdField (rh m)] in
  let value := fun l r : Z => if fl || fr then 0 else logical o l r in
  eval mx =
    match LH with
    | Done (l, n1) t1 =>
        match RH n1 with
        | Done (r, n) t2 => Done (value l r, n) (RdNode mx :: t1 ++ t2)
        | Abort f => Abort f
        | OutOfFuel => OutOfFuel
        end
    | Abort f => Abort f
    | OutOfFuel => OutOfFuel
    end /\
  (fr = false -> rh m = XTEXPR_TYPE_SUB ->
   forall l n1 t1, LH = Done (l, n1) t1 ->
     (forall r n t2, eval n1 = Done (r, n) t2 ->
        eval mx = Done (value l r, n) (RdNode mx :: t1 ++ t2)) /\
     (forall f, eval n1 = Abort f -> eval mx = Abort f)) /\
  (fl = false -> lh m = XTEXPR_TYPE_SUB ->
   forall f, eval (S mx) = Abort f -> eval mx = Abort f).
Proof.
  intros Hm Ho Hop eval LH RH value.
  assert (Fl : flag_set (op m) XTEXPR_LHIMM = fl)
    by (rewrite Hop; destruct Ho as [-> | ->], fl, fr; reflexivity).
  assert (Fr : flag_set (op m) XTEXPR_RHIMM = fr)
    by (rewrite Hop; destruct Ho as [-> | ->], fl, fr; reflexivity).
  assert (Hsw : forall l r,
             xt_expr_switch (Z.land (op m) XTEXPR_OPMASK) l r =
             Done (value l r) []).
  { intros l r. subst value. rewrite Hop.
    destruct Ho as [-> | ->], fl, fr; reflexivity. }
  assert (E : eval mx =
              match LH with
              | Done (l, n1) t1 =>
                  match RH n1 with
                  | Done (r, n) t2 => Done (value l r, n) (RdNode mx :: t1 ++ t2)
                  | Abort f => Abort f
                  | OutOfFuel => OutOfFuel
                  end
              | Abort f => Abort f
              | OutOfFuel => OutOfFuel
              end).
  { subst eval LH RH. cbv beta.
    rewrite (xt_expr_eval_unfolded big_endian skb blk mx m Hm), Fl, Fr.
    match goal with
    | |- match ?x with _ => _ end = _ => destruct x as [[l n1] t1| |]; trivial
    end.
    match goal with
    | |- match ?x with _ => _ end = _ => destruct x as [[r n] t2| |]; trivial
    end.
    now rewrite Hsw. }
  split; [exact E|]. split.
  - intros Hfr Hsub l n1 t1 HL. rewrite E, HL. subst RH. cbv beta.
    rewrite Hfr, Hsub. cbn [Z.eqb XTEXPR_TYPE_SUB Pos.eqb].
    split; [intros r n t2 Hr|intros f Hr]; now rewrite Hr.
  - intros Hfl Hsub f Hl. rewrite E. subst LH. rewrite Hfl, Hsub.
    cbn [Z.eqb XTEXPR_TYPE_SUB Pos.eqb]. now rewrite Hl.
Qed.

(** [0 && mark] with two subexpressions: the left value 0 decides, the
    right subexpression (node 2, register 3) is evaluated all the same.
    [1 || mark] with the immediate 1 on the left: the right subexpression
    (node 1) is evaluated all the same (the value is 0, as for every node
    with a flag). *)
Lemma C5_witness :
  xt_expr_eval false skb_5_8_9
    (blk_fields XTEXPR_OP_LAND XTEXPR_TYPE_NONE XTEXPR_TYPE_NFMARK) 0 =
  Done (0, 3%nat)
    [RdNode 0; RdNode 1; RdField 0; RdField 0; RdNode 2; RdField 3; RdField 3] /\
  xt_expr_eval false skb_5_8_9
    [MX (Z.lor XTEXPR_OP_LOR XTEXPR_LHIMM) 1 XTEXPR_TYPE_SUB;
     mx_field XTEXPR_TYPE_NFMARK] 0 =
  Done (0, 2%nat) [RdNode 0; RdNode 1; RdField 3; RdField 3].
Proof.
  split.
  - exact (proj1 (C5_land_lor_resolve_both false skb_5_8_9
                    (blk_fields XTEXPR_OP_LAND XTEXPR_TYPE_NONE
                       XTEXPR_TYPE_NFMARK)
                    0%nat (MX XTEXPR_OP_LAND XTEXPR_TYPE_SUB XTEXPR_TYPE_SUB)
                    XTEXPR_OP_LAND false false
                    eq_refl (or_introl eq_refl) eq_refl)).
  - exact (proj1 (C5_land_lor_resolve_both false skb_5_8_9
                    [MX (Z.lor XTEXPR_OP_LOR XTEXPR_LHIMM) 1 XTEXPR_TYPE_SUB;
                     mx_field XTEXPR_TYPE_NFMARK]
                    0%nat (MX (Z.lor XTEXPR_OP_LOR XTEXPR_LHIMM) 1
                             XTEXPR_TYPE_SUB)
                    XTEXPR_OP_LOR true false
                    eq_refl (or_intror eq_refl) eq_refl)).
Defined.

(** C6 (code defect).  The claim: [DIV] and [MOD] with a zero right-hand
    operand give a recoverable failure.  The code divides: "mark / ctmark"
    and "mark % ctmark" on a packet without a conntrack entry end in the
    division by zero that C leaves undefined. *)
Theorem C6_division_by_zero_is_undefined :
  forall big_endian mark proto,
    xt_expr_eval big_endian (SKB mark proto None)
      [MX XTEXPR_OP_DIV XTEXPR_TYPE_NFMARK XTEXPR_TYPE_CTMARK] 0 =
      Abort DivideError /\
    xt_expr_eval big_endian (SKB mark proto None)
      [MX XTEXPR_OP_MOD XTEXPR_TYPE_NFMARK XTEXPR_TYPE_CTMARK] 0 =
      Abort DivideError.
Proof. intros. split; reflexivity. Qed.

(** On every node: [DIV] and [MOD] over a zero right-hand value do not
    return. *)
Lemma division_by_zero big_endian skb blk mx m l n tr :
  nth_error blk mx = Some m ->
  Z.land (op m) XTEXPR_OPMASK = XTEXPR_OP_DIV \/
  Z.land (op m) XTEXPR_OPMASK = XTEXPR_OP_MOD ->
  xt_expr_operands big_endian (xt_expr_eval big_endian skb blk) skb m mx =
    Done (l, 0, n) tr ->
  xt_expr_eval big_endian skb blk mx = Abort DivideError.
Proof.
  intros Hm Hsel Hops.
  rewrite (xt_expr_eval_node _ _ _ _ _ _ _ _ _ Hm Hops).
  destruct Hsel as [-> | ->]; reflexivity.
Qed.

(** C7 (code defect).  The claim: [SUB] with the operands 0 and 1 yields
    2^32 - 1.  The [SUB] arm does store the difference modulo 2^32, but the
    node that holds 0 and 1 as its operands, [{SUB|LHIMM|RHIMM, 0, 1}], has
    the selector 194 and yields 0, and so do [ADD], [MUL] and [NEG] on
    immediate operands. *)
Theorem C7_immediate_sub_yields_zero :
  forall big_endian skb,
    xt_expr_switch XTEXPR_OP_SUB 0 1 = Done (2 ^ 32 - 1) [] /\
    Z.land (op_imm XTEXPR_OP_SUB) XTEXPR_OPMASK = 194 /\
    xt_expr_eval big_endian skb [MX (op_imm XTEXPR_OP_SUB) 0 1] 0 =
      Done (0, 1%nat) [RdNode 0] /\
    xt_expr_eval big_endian skb [MX (op_imm XTEXPR_OP_ADD) (2 ^ 32 - 1) 1] 0 =
      Done (0, 1%nat) [RdNode 0] /\
    xt_expr_eval big_endian skb [MX (op_imm XTEXPR_OP_MUL) 3 5] 0 =
      Done (0, 1%nat) [RdNode 0] /\
    xt_expr_eval big_endian skb [MX (op_imm XTEXPR_OP_NEG) 1 0] 0 =
      Done (0, 1%nat) [RdNode 0].
Proof. intros. repeat split; reflexivity. Qed.

(** X20.  On a node without immediate flags the arithmetic is that of the
    32-bit unsigned type: where the selector is [ADD], [SUB], [MUL] or
    [NEG] the value stored is the sum, difference, product or opposite of
    the operand values modulo 2^32. *)
Theorem X20_unflagged_arithmetic_wraps big_endian skb blk mx m l r n tr :
  nth_error blk mx = Some m ->
  xt_expr_operands big_endian (xt_expr_eval big_endian skb blk) skb m mx =
    Done (l, r, n) tr ->
  (Z.land (op m) XTEXPR_OPMASK = XTEXPR_OP_ADD ->
   xt_expr_eval big_endian skb blk mx =
     Done ((l + r) mod 2 ^ 32, n) (RdNode mx :: tr)) /\
  (Z.land (op m) XTEXPR_OPMASK = XTEXPR_OP_SUB ->
   xt_expr_eval big_endian skb blk mx =
     Done ((l - r) mod 2 ^ 32, n) (RdNode mx :: tr)) /\
  (Z.land (op m) XTEXPR_OPMASK = XTEXPR_OP_MUL ->
   xt_expr_eval big_endian skb blk mx =
     Done ((l * r) mod 2 ^ 32, n) (RdNode mx :: tr)) /\
  (Z.land (op m) XTEXPR_OPMASK = XTEXPR_OP_NEG ->
   xt_expr_eval big_endian skb blk mx =
     Done ((- l) mod 2 ^ 32, n) (RdNode mx :: tr)).
Proof.
  intros Hm Hops.
  rewrite (xt_expr_eval_node _ _ _ _ _ _ _ _ _ Hm Hops).
  repeat split; intros ->; reflexivity.
Qed.

(** [SUB] over two register nodes, with the left value 0 and the right
    value 1 (the mark of the packet): 2^32 - 1. *)
Lemma X20_witness :
  xt_expr_eval false skb_untracked
    (blk_fields XTEXPR_OP_SUB XTEXPR_TYPE_NONE XTEXPR_TYPE_NFMARK) 0 =
  Done (2 ^ 32 - 1, 3%nat)
    [RdNode 0; RdNode 1; RdField 0; RdField 0; RdNode 2; RdField 3; RdField 3].
Proof.
  apply (proj1 (proj2 (X20_unflagged_arithmetic_wraps false skb_untracked
                  (blk_fields XTEXPR_OP_SUB XTEXPR_TYPE_NONE XTEXPR_TYPE_NFMARK)
                  0%nat (MX XTEXPR_OP_SUB XTEXPR_TYPE_SUB XTEXPR_TYPE_SUB)
                  0 1 3%nat
                  [RdNode 1; RdField 0; RdField 0; RdNode 2; RdField 3; RdField 3]
                  eq_refl eq_refl))).
  reflexivity.
Defined.

(** C8 (code defect).  The claim: on a unary node the result is the same
    whatever the [rh] slot holds.  With the packet mark 5 and the connection
    mark 9, [{NONE, NFMARK, rh}] yields 9 for [rh = CTMARK] and 0 for
    [rh = NONE], never the mark: the left-hand field is read through the
    [rh] slot.  And [{NEG, NFMARK, CTMARK}] yields 2^32 - 9, but 0 once
    [XTEXPR_RHIMM] is set on it. *)
Theorem C8_unary_result_follows_rh_slot :
  forall big_endian,
    xt_expr_eval big_endian skb_5_8_9
      [MX XTEXPR_OP_NONE XTEXPR_TYPE_NFMARK XTEXPR_TYPE_CTMARK] 0 =
      Done (9, 1%nat) [RdNode 0; RdField 4; RdField 4] /\
    xt_expr_eval big_endian skb_5_8_9
      [MX XTEXPR_OP_NONE XTEXPR_TYPE_NFMARK XTEXPR_TYPE_NONE] 0 =
      Done (0, 1%nat) [RdNode 0; RdField 0; RdField 0] /\
    xt_expr_eval big_endian skb_5_8_9
      [MX XTEXPR_OP_NEG XTEXPR_TYPE_NFMARK XTEXPR_TYPE_CTMARK] 0 =
      Done (2 ^ 32 - 9, 1%nat) [RdNode 0; RdField 4; RdField 4] /\
    xt_expr_eval big_endian skb_5_8_9
      [MX (Z.lor XTEXPR_OP_NEG XTEXPR_RHIMM) XTEXPR_TYPE_NFMARK XTEXPR_TYPE_CTMARK]
      0 =
      Done (0, 1%nat) [RdNode 0; RdField 4].
Proof. intros. repeat split; reflexivity. Qed.

(** What does hold of the unary operators: the right-hand value is resolved
    and then ignored, the value stored depends on the left-hand value
    only. *)
Lemma unary_ignores_rh_value big_endian skb blk mx m l r n tr :
  nth_error blk mx = Some m ->
  xt_expr_operands big_endian (xt_expr_eval big_endian skb blk) skb m mx =
    Done (l, r, n) tr ->
  In (Z.land (op m) XTEXPR_OPMASK)
     [XTEXPR_OP_NONE; XTEXPR_OP_NEG; XTEXPR_OP_LNOT; XTEXPR_OP_NOT] ->
  xt_expr_eval big_endian skb blk mx =
  match xt_expr_switch (Z.land (op m) XTEXPR_OPMASK) l 0 with
  | Done res _ => Done (res, n) (RdNode mx :: tr)
  | Abort f => Abort f
  | OutOfFuel => OutOfFuel
  end.
Proof.
  intros Hm Hops Hsel.
  rewrite (xt_expr_eval_node _ _ _ _ _ _ _ _ _ Hm Hops).
  cbn in Hsel. destruct Hsel as [<-|[<-|[<-|[<-|[]]]]]; reflexivity.
Qed.

(** C9.  On a node whose selector is past the last operator of the
    [switch], flags or no flags, the call is: the left-hand operand (the
    slot itself under [XTEXPR_LHIMM], else the call on the next node where
    the [lh] slot is [XTEXPR_TYPE_SUB], else a register), then the
    right-hand operand in the same way from where the left one ended, then
    the value 0.  Both operands are resolved: the pointer returned and the
    trace are theirs. *)
Theorem C9_unknown_opcode_yields_zero big_endian skb blk mx m :
  nth_error blk mx = Some m ->
  XTEXPR_OP_XOR < Z.land (op m) XTEXPR_OPMASK ->
  let eval := xt_expr_eval big_endian skb blk in
  let LH :=
    if flag_set (op m) XTEXPR_LHIMM then Done (lh m, S mx) []
    else if lh m =? XTEXPR_TYPE_SUB then eval (S mx)
    else Done (xt_expr_rvalue big_endian skb (rh m), S mx) [RdField (rh m)] in
  let RH := fun n1 : nat =>
    if flag_set (op m) XTEXPR_RHIMM then Done (rh m, n1) []
    else if rh m =? XTEXPR_TYPE_SUB then eval n1
    else Done (xt_expr_rvalue big_endian skb (rh m), n1) [RdField (rh m)] in
  eval mx =
    match LH with
    | Done (l, n1) t1 =>
        match RH n1 with
        | Done (r, n) t2 => Done (0, n) (RdNode mx :: t1 ++ t2)
        | Abort f => Abort f
        | OutOfFuel => OutOfFuel
        end
    | Abort f => Abort f
    | OutOfFuel => OutOfFuel
    end.
Proof.
  intros Hm Hsel eval LH RH. subst eval LH RH. cbv beta.
  rewrite (xt_expr_eval_unfolded big_endian skb blk mx m Hm).
  match goal with
  | |- match ?x with _ => _ end = _ => destruct x as [[l n1] t1| |]; trivial
  end.
  match goal with
  | |- match ?x with _ => _ end = _ => destruct x as [[r n] t2| |]; trivial
  end.
  now rewrite xt_expr_switch_default.
Qed.

(** Selector 27 over the subexpressions "ctmark" (9) and "mark" (5), and
    selector 91 (27 with [XTEXPR_LHIMM]) over the immediate 1 and the
    subexpression "mark": node 1 is loaded. *)
Lemma C9_witness :
  (XTEXPR_OP_XOR < Z.land 27 XTEXPR_OPMASK /\
   xt_expr_eval false skb_5_8_9
     (blk_fields 27 XTEXPR_TYPE_CTMARK XTEXPR_TYPE_NFMARK) 0 =
   Done (0, 3%nat)
     [RdNode 0; RdNode 1; RdField 4; RdField 4; RdNode 2; RdField 3; RdField 3]) /\
  (XTEXPR_OP_XOR < Z.land (Z.lor 27 XTEXPR_LHIMM) XTEXPR_OPMASK /\
   xt_expr_eval false skb_5_8_9
     [MX (Z.lor 27 XTEXPR_LHIMM) 1 XTEXPR_TYPE_SUB;
      mx_field XTEXPR_TYPE_NFMARK] 0 =
   Done (0, 2%nat) [RdNode 0; RdNode 1; RdField 3; RdField 3]).
Proof.
  split; (split; [reflexivity|]).
  - exact (C9_unknown_opcode_yields_zero false skb_5_8_9
             (blk_fields 27 XTEXPR_TYPE_CTMARK XTEXPR_TYPE_NFMARK)
             0%nat (MX 27 XTEXPR_TYPE_SUB XTEXPR_TYPE_SUB) eq_refl eq_refl).
  - exact (C9_unknown_opcode_yields_zero false skb_5_8_9
             [MX (Z.lor 27 XTEXPR_LHIMM) 1 XTEXPR_TYPE_SUB;
              mx_field XTEXPR_TYPE_NFMARK]
             0%nat (MX (Z.lor 27 XTEXPR_LHIMM) 1 XTEXPR_TYPE_SUB)
             eq_refl eq_refl).
Defined.

(** C10.  [xt_expr_rvalue] returns 0 for every register other than the
    packet mark, the connection mark and the layer-3 protocol. *)
Theorem C10_unimplemented_fields_read_zero big_endian skb reg :
  reg <> XTEXPR_TYPE_NFMARK ->
  reg <> XTEXPR_TYPE_CTMARK ->
  reg <> XTEXPR_TYPE_L3PROTO ->
  xt_expr_rvalue big_endian skb reg = 0.
Proof. apply xt_expr_rvalue_default. Qed.

Lemma C10_witness :
  Forall (fun reg => xt_expr_rvalue false skb_5_8_9 reg = 0)
    [XTEXPR_TYPE_THIS; XTEXPR_TYPE_SECMARK; XTEXPR_TYPE_L2PROTO;
     XTEXPR_TYPE_L4PROTO; XTEXPR_TYPE_L4OFFSET].
Proof.
  repeat (apply Forall_cons;
          [apply (C10_unimplemented_fields_read_zero false skb_5_8_9);
           discriminate|]).
  apply Forall_nil.
Defined.

(** Only the three implemented registers can yield a nonzero value. *)
Lemma xt_expr_rvalue_nonzero big_endian skb reg :
  xt_expr_rvalue big_endian skb reg <> 0 ->
  reg = XTEXPR_TYPE_NFMARK \/ reg = XTEXPR_TYPE_CTMARK \/
  reg = XTEXPR_TYPE_L3PROTO.
Proof.
  intros H.
  destruct (Z.eq_dec reg XTEXPR_TYPE_NFMARK); [now left|].
  destruct (Z.eq_dec reg XTEXPR_TYPE_CTMARK); [now right; left|].
  destruct (Z.eq_dec reg XTEXPR_TYPE_L3PROTO); [now right; right|].
  contradiction H. now apply xt_expr_rvalue_default.
Qed.

(** * Further properties of the evaluator *)

(** ** Support *)

Lemma node_reads_app t1 t2 :
  node_reads (t1 ++ t2) = node_reads t1 ++ node_reads t2.
Proof.
  induction t1 as [|[i|reg] t1 IH]; cbn; trivial. now rewrite IH.
Qed.

Lemma node_reads_none tr :
  (forall j, ~ In (RdNode j) tr) -> node_reads tr = [].
Proof.
  induction tr as [|[i|reg] tr IH]; cbn; intros H; trivial.
  - exfalso. apply (H i). now left.
  - apply IH. intros j Hj. apply (H j). now right.
Qed.

Lemma shift_trace_0 tr : shift_trace 0 tr = tr.
Proof.
  unfold shift_trace. induction tr as [|[i|reg] tr IH]; cbn; trivial;
    now rewrite IH.
Qed.

Section Support.

Variable big_endian : bool.
Variable skb : sk_buff.

(** Whatever fuel lets [xt_expr_descend] come to an end gives the outcome of
    the evaluator. *)
Lemma descend_eval blk fuel mx :
  xt_expr_descend big_endian fuel skb blk mx <> OutOfFuel ->
  xt_expr_eval big_endian skb blk mx =
  xt_expr_descend big_endian fuel skb blk mx.
Proof.
  intros Hne. unfold xt_expr_eval.
  destruct (Nat.le_ge_cases fuel (S (length blk - mx))) as [Hle|Hle].
  - symmetry. now apply (descend_fuel_le big_endian skb blk _ _ mx Hle).
  - apply (descend_fuel_le big_endian skb blk _ _ mx Hle).
    apply descend_enough_fuel. lia.
Qed.

Lemma descend_node_reads blk fuel mx v n tr :
  xt_expr_descend big_endian fuel skb blk mx = Done (v, n) tr ->
  node_reads tr = seq mx (n - mx).
Proof.
  revert mx v n tr. induction fuel as [|fuel IH]; intros mx v n tr H;
    [discriminate|].
  apply xt_expr_descend_Done in H as (m & l & r & t & _ & _ & Hops & _ & ->).
  apply xt_expr_operands_Done in Hops as (n1 & t1 & t2 & Hl & Hr & ->).
  assert (H1 : node_reads t1 = seq (S mx) (n1 - S mx) /\ (S mx <= n1)%nat).
  { apply xt_expr_lh_Done in Hl as [[-> Hno]|Hl].
    - rewrite Nat.sub_diag. split; [now apply node_reads_none|lia].
    - split; [now apply IH in Hl|].
      eapply xt_expr_descend_advances in Hl; [|apply Nat.le_0_l]. lia. }
  assert (H2 : node_reads t2 = seq n1 (n - n1) /\ (n1 <= n)%nat).
  { apply xt_expr_rh_Done in Hr as [[-> Hno]|Hr].
    - rewrite Nat.sub_diag. split; [now apply node_reads_none|lia].
    - split; [now apply IH in Hr|].
      eapply xt_expr_descend_advances in Hr; [|apply Nat.le_0_l]. lia. }
  destruct H1 as [E1 L1], H2 as [E2 L2].
  cbn [node_reads]. rewrite node_reads_app, E1, E2.
  replace (n - mx)%nat with (S ((n1 - S mx) + (n - n1)))%nat by lia.
  cbn [seq]. f_equal. rewrite seq_app. do 2 f_equal. lia.
Qed.

Lemma xt_expr_lh_shift d d' m next l c t k :
  xt_expr_lh big_endian d skb m next = Done (l, c) t ->
  (d next = Done (l, c) t ->
   d' (k + next)%nat = Done (l, (k + c)%nat) (shift_trace k t)) ->
  xt_expr_lh big_endian d' skb m (k + next) =
  Done (l, (k + c)%nat) (shift_trace k t).
Proof.
  unfold xt_expr_lh.
  destruct (flag_set (op m) XTEXPR_LHIMM); [now intros [= <- <- <-]|].
  destruct (lh m =? XTEXPR_TYPE_SUB); [now intros H Hd; apply Hd|].
  rewrite !read_field_Done. cbn. now intros [= <- <- <-].
Qed.

Lemma xt_expr_rh_shift d d' m next r c t k :
  xt_expr_rh big_endian d skb m next = Done (r, c) t ->
  (d next = Done (r, c) t ->
   d' (k + next)%nat = Done (r, (k + c)%nat) (shift_trace k t)) ->
  xt_expr_rh big_endian d' skb m (k + next) =
  Done (r, (k + c)%nat) (shift_trace k t).
Proof.
  unfold xt_expr_rh.
  destruct (flag_set (op m) XTEXPR_RHIMM); [now intros [= <- <- <-]|].
  destruct (rh m =? XTEXPR_TYPE_SUB); [now intros H Hd; apply Hd|].
  rewrite !read_field_Done. cbn. now intros [= <- <- <-].
Qed.

(** A call that returns has looked at the nodes between its argument and
    the pointer it returns only: the same nodes, [k] places later in
    another block, give the same value. *)
Lemma descend_shift blk blk' k fuel i v n tr :
  xt_expr_descend big_endian fuel skb blk i = Done (v, n) tr ->
  same_window blk blk' k i n ->
  xt_expr_descend big_endian fuel skb blk' (k + i) =
  Done (v, (k + n)%nat) (shift_trace k tr).
Proof.
  revert i v n tr. induction fuel as [|fuel IH]; intros i v n tr H Hw;
    [discriminate|].
  pose proof H as Hadv.
  eapply xt_expr_descend_advances in Hadv; [|apply Nat.le_0_l].
  apply xt_expr_descend_Done in H as (m & l & r & t & Hm & _ & Hops & Hsw & ->).
  apply xt_expr_operands_Done in Hops as (n1 & t1 & t2 & Hl & Hr & ->).
  assert (L1 : (S i <= n1)%nat).
  { apply xt_expr_lh_Done in Hl as [[-> _]|Hl]; [lia|].
    eapply xt_expr_descend_advances in Hl; [|apply Nat.le_0_l]. lia. }
  assert (L2 : (n1 <= n)%nat).
  { apply xt_expr_rh_Done in Hr as [[-> _]|Hr]; [lia|].
    eapply xt_expr_descend_advances in Hr; [|apply Nat.le_0_l]. lia. }
  cbn [xt_expr_descend]. unfold load.
  rewrite (Hw i) by lia. rewrite Hm. cbn [bind].
  unfold xt_expr_operands. rewrite <- Nat.add_succ_r.
  rewrite (xt_expr_lh_shift _ (xt_expr_descend big_endian fuel skb blk')
             _ _ _ _ _ k Hl).
  2:{ intros Hd. apply IH; trivial. intros j Hj. apply Hw. lia. }
  cbn [bind].
  rewrite (xt_expr_rh_shift _ (xt_expr_descend big_endian fuel skb blk')
             _ _ _ _ _ k Hr).
  2:{ intros Hd. apply IH; trivial. intros j Hj. apply Hw. lia. }
  cbn [bind ret]. rewrite Hsw. cbn.
  unfold shift_trace. rewrite !app_nil_r, map_app. reflexivity.
Qed.

Lemma xt_expr_eval_shift blk blk' k i v n tr :
  xt_expr_eval big_endian skb blk i = Done (v, n) tr ->
  same_window blk blk' k i n ->
  xt_expr_eval big_endian skb blk' (k + i) =
  Done (v, (k + n)%nat) (shift_trace k tr).
Proof.
  intros H Hw. unfold xt_expr_eval in H.
  apply (descend_shift _ blk' k) in H; trivial.
  rewrite <- H. apply descend_eval. rewrite H. discriminate.
Qed.

End Support.

Section Inversion.

Variable big_endian : bool.
Variable skb : sk_buff.
Variable blk : list xt_expr_micro.

(** A call that returns: its node, the operands as resolved and the arm of
    the [switch] that stored the value. *)
Lemma xt_expr_eval_Done mx v n tr :
  xt_expr_eval big_endian skb blk mx = Done (v, n) tr ->
  exists m l r t,
    nth_error blk mx = Some m /\
    xt_expr_operands big_endian (xt_expr_eval big_endian skb blk) skb m mx =
      Done (l, r, n) t /\
    xt_expr_switch (Z.land (op m) XTEXPR_OPMASK) l r = Done v [] /\
    tr = RdNode mx :: t.
Proof.
  rewrite xt_expr_eval_eq. intros H.
  apply bind_Done in H as (m & t0 & t1 & Hm & H & ->).
  apply load_Done in Hm as (Hm & -> & _).
  apply bind_Done in H as ([[l r] n'] & t2 & t3 & Hops & H & ->).
  apply bind_Done in H as (res & t4 & t5 & Hsw & H & ->).
  injection H as <- <- <-.
  pose proof (xt_expr_switch_Done _ _ _ _ _ Hsw) as ->.
  exists m, l, r, t2. rewrite !app_nil_r. now repeat split.
Qed.

Lemma xt_expr_eval_past_end mx :
  (length blk <= mx)%nat ->
  xt_expr_eval big_endian skb blk mx = Abort (OutOfBounds mx).
Proof.
  intros H. rewrite xt_expr_eval_eq. unfold load.
  now rewrite (proj2 (nth_error_None blk mx) H).
Qed.

End Inversion.

Lemma same_window_app pre blk post i n :
  (n <= length blk)%nat ->
  same_window blk (pre ++ blk ++ post) (length pre) i n.
Proof.
  intros Hn j Hj. rewrite nth_error_app2 by lia.
  replace (length pre + j - length pre)%nat with j by lia.
  apply nth_error_app1. lia.
Qed.

Section Composition.

Variable big_endian : bool.
Variable skb : sk_buff.

(** A block behind a node: the call on it from inside the larger block. *)
Lemma xt_expr_eval_tail m b v tr :
  xt_expr_eval big_endian skb b 0 = Done (v, length b) tr ->
  forall post,
    xt_expr_eval big_endian skb (m :: b ++ post) 1 =
    Done (v, S (length b)) (shift_trace 1 tr).
Proof.
  intros H post.
  apply (xt_expr_eval_shift big_endian skb b (m :: b ++ post) 1 0) in H;
    trivial.
  apply (same_window_app [m] b post 0 (length b)). lia.
Qed.

(** A node over one subexpression on the left and a register on the
    right. *)
Lemma xt_expr_eval_over_one o z b v tr :
  flag_set o XTEXPR_LHIMM = false ->
  flag_set o XTEXPR_RHIMM = false ->
  z <> XTEXPR_TYPE_SUB ->
  xt_expr_eval big_endian skb b 0 = Done (v, length b) tr ->
  xt_expr_eval big_endian skb (MX o XTEXPR_TYPE_SUB z :: b) 0 =
  match xt_expr_switch (Z.land o XTEXPR_OPMASK) v
          (xt_expr_rvalue big_endian skb z) with
  | Done res _ =>
      Done (res, S (length b))
           (RdNode 0 :: shift_trace 1 tr ++ [RdField z])
  | Abort f => Abort f
  | OutOfFuel => OutOfFuel
  end.
Proof.
  intros Hl Hr Hz Hb.
  apply (xt_expr_eval_node big_endian skb _ 0%nat
           (MX o XTEXPR_TYPE_SUB z)); [reflexivity|].
  unfold xt_expr_operands, xt_expr_lh, xt_expr_rh. cbn [op lh rh].
  rewrite Hl, Hr. cbn [Z.eqb XTEXPR_TYPE_SUB Pos.eqb].
  pose proof (xt_expr_eval_tail (MX o XTEXPR_TYPE_SUB z) b v tr Hb []) as E.
  rewrite app_nil_r in E. rewrite E. cbn [bind].
  destruct (Z.eqb_spec z XTEXPR_TYPE_SUB); [contradiction|].
  rewrite read_field_Done. reflexivity.
Qed.

(** A node over two subexpressions. *)
Lemma xt_expr_eval_over_two o b1 b2 v1 v2 t1 t2 :
  flag_set o XTEXPR_LHIMM = false ->
  flag_set o XTEXPR_RHIMM = false ->
  xt_expr_eval big_endian skb b1 0 = Done (v1, length b1) t1 ->
  xt_expr_eval big_endian skb b2 0 = Done (v2, length b2) t2 ->
  xt_expr_eval big_endian skb
    (MX o XTEXPR_TYPE_SUB XTEXPR_TYPE_SUB :: b1 ++ b2) 0 =
  match xt_expr_switch (Z.land o XTEXPR_OPMASK) v1 v2 with
  | Done res _ =>
      Done (res, S (length b1 + length b2))
           (RdNode 0 :: shift_trace 1 t1 ++ shift_trace (S (length b1)) t2)
  | Abort f => Abort f
  | OutOfFuel => OutOfFuel
  end.
Proof.
  intros Hl Hr H1 H2.
  apply (xt_expr_eval_node big_endian skb _ 0%nat
           (MX o XTEXPR_TYPE_SUB XTEXPR_TYPE_SUB)); [reflexivity|].
  unfold xt_expr_operands, xt_expr_lh, xt_expr_rh. cbn [op lh rh].
  rewrite Hl, Hr. cbn [Z.eqb XTEXPR_TYPE_SUB Pos.eqb].
  rewrite (xt_expr_eval_tail _ b1 v1 t1 H1 b2). cbn [bind].
  apply (xt_expr_eval_shift big_endian skb b2
           (MX o XTEXPR_TYPE_SUB XTEXPR_TYPE_SUB :: b1 ++ b2)
           (S (length b1)) 0) in H2.
  - rewrite Nat.add_0_r in H2. rewrite H2. cbn.
    now rewrite app_nil_r.
  - replace (MX o XTEXPR_TYPE_SUB XTEXPR_TYPE_SUB :: b1 ++ b2)
      with ((MX o XTEXPR_TYPE_SUB XTEXPR_TYPE_SUB :: b1) ++ b2 ++ [])
      by (now rewrite app_nil_r).
    apply (same_window_app (MX o XTEXPR_TYPE_SUB XTEXPR_TYPE_SUB :: b1)
             b2 [] 0 (length b2)). lia.
Qed.

End Composition.

Section Fields.

Variables big_endian big_endian' : bool.
Variables skb skb' : sk_buff.
Variable blk : list xt_expr_micro.

(** A call that returns has asked the packet for the registers in its trace
    only: a packet that agrees on these gives the same call. *)
Lemma descend_fields fuel i v n tr :
  xt_expr_descend big_endian fuel skb blk i = Done (v, n) tr ->
  (forall reg, In (RdField reg) tr ->
     xt_expr_rvalue big_endian' skb' reg = xt_expr_rvalue big_endian skb reg) ->
  xt_expr_descend big_endian' fuel skb' blk i = Done (v, n) tr.
Proof.
  revert i v n tr. induction fuel as [|fuel IH]; intros i v n tr H Hf;
    [discriminate|].
  apply xt_expr_descend_Done in H as (m & l & r & t & Hm & _ & Hops & Hsw & ->).
  apply xt_expr_operands_Done in Hops as (n1 & t1 & t2 & Hl & Hr & ->).
  assert (Hf1 : forall reg, In (RdField reg) t1 ->
            xt_expr_rvalue big_endian' skb' reg =
            xt_expr_rvalue big_endian skb reg).
  { intros reg Hin. apply Hf. right. apply in_or_app. now left. }
  assert (Hf2 : forall reg, In (RdField reg) t2 ->
            xt_expr_rvalue big_endian' skb' reg =
            xt_expr_rvalue big_endian skb reg).
  { intros reg Hin. apply Hf. right. apply in_or_app. now right. }
  cbn [xt_expr_descend]. unfold load. rewrite Hm. cbn [bind].
  unfold xt_expr_operands.
  assert (El : xt_expr_lh big_endian' (xt_expr_descend big_endian' fuel skb' blk)
                 skb' m (S i) = Done (l, n1) t1).
  { revert Hl Hf1. unfold xt_expr_lh.
    destruct (flag_set (op m) XTEXPR_LHIMM); trivial.
    destruct (lh m =? XTEXPR_TYPE_SUB); [now intros Hl Hf1; apply IH|].
    rewrite !read_field_Done. cbn. intros [= <- <- <-] Hf1.
    rewrite Hf1; [reflexivity|now left]. }
  rewrite El. cbn [bind].
  assert (Er : xt_expr_rh big_endian' (xt_expr_descend big_endian' fuel skb' blk)
                 skb' m n1 = Done (r, n) t2).
  { revert Hr Hf2. unfold xt_expr_rh.
    destruct (flag_set (op m) XTEXPR_RHIMM); trivial.
    destruct (rh m =? XTEXPR_TYPE_SUB); [now intros Hr Hf2; apply IH|].
    rewrite !read_field_Done. cbn. intros [= <- <- <-] Hf2.
    rewrite Hf2; [reflexivity|now left]. }
  rewrite Er. cbn [bind ret]. rewrite Hsw. cbn. now rewrite !app_nil_r.
Qed.

End Fields.

(** ** The recursion and the walking pointer *)

(** X1.  [xt_expr_descend] comes to an end on every block, packet and
    index: its recursion is no deeper than the number of nodes from the
    index to the end of the block, and any budget above that number gives
    one and the same outcome. *)
Theorem X1_descend_terminates big_endian skb blk mx fuel :
  (length blk - mx < fuel)%nat ->
  xt_expr_descend big_endian fuel skb blk mx <> OutOfFuel /\
  xt_expr_descend big_endian fuel skb blk mx =
  xt_expr_eval big_endian skb blk mx.
Proof.
  intros H. split; [now apply descend_enough_fuel|now apply xt_expr_eval_fuel].
Qed.

Lemma X1_witness :
  (length blk_1234 - 0 < 4)%nat /\
  xt_expr_descend false 4 skb_5_8_9 blk_1234 0 <> OutOfFuel /\
  xt_expr_descend false 4 skb_5_8_9 blk_1234 0 =
  xt_expr_eval false skb_5_8_9 blk_1234 0.
Proof.
  split; [cbn; lia|].
  apply (X1_descend_terminates false skb_5_8_9 blk_1234 0 4). cbn. lia.
Defined.

(** X2.  A call that returns has moved the pointer forward, by at least one
    node and not past the end of the block, and has loaded every node from
    its argument to the pointer it returns, each once and in ascending
    order. *)
Theorem X2_single_forward_pass big_endian skb blk mx v n tr :
  xt_expr_eval big_endian skb blk mx = Done (v, n) tr ->
  (mx < n <= length blk)%nat /\ node_reads tr = seq mx (n - mx).
Proof.
  intros H. split.
  - now apply (xt_expr_eval_advances big_endian skb blk mx v n tr (Nat.le_0_l _)).
  - unfold xt_expr_eval in H. now apply descend_node_reads in H.
Qed.

Lemma X2_witness :
  (0 < 3 <= length (blk_fields XTEXPR_OP_SUB XTEXPR_TYPE_CTMARK XTEXPR_TYPE_NFMARK))%nat /\
  node_reads
    [RdNode 0; RdNode 1; RdField 4; RdField 4; RdNode 2; RdField 3; RdField 3] =
  [0; 1; 2]%nat.
Proof.
  apply (X2_single_forward_pass false skb_5_8_9
           (blk_fields XTEXPR_OP_SUB XTEXPR_TYPE_CTMARK XTEXPR_TYPE_NFMARK)
           0 4 3).
  reflexivity.
Defined.

(** X3.  A call that returns depends on the block through the nodes between
    its argument and the pointer it returns only: on a block with the same
    nodes there, whatever its other nodes and its length, the call returns
    the same value and pointer with the same trace. *)
Theorem X3_outcome_is_local big_endian skb blk blk' mx v n tr :
  xt_expr_eval big_endian skb blk mx = Done (v, n) tr ->
  (forall j, (mx <= j < n)%nat -> nth_error blk' j = nth_error blk j) ->
  xt_expr_eval big_endian skb blk' mx = Done (v, n) tr.
Proof.
  intros H Hw.
  apply (xt_expr_eval_shift big_endian skb blk blk' 0) in H; [|exact Hw].
  now rewrite shift_trace_0 in H.
Qed.

(** Node 0 of the second block is the node of the first; nodes 1 and 2, a
    division by zero and an unknown opcode, are never looked at. *)
Lemma X3_witness :
  xt_expr_eval false skb_5_8_9
    [mx_field XTEXPR_TYPE_NFMARK;
     MX XTEXPR_OP_DIV XTEXPR_TYPE_NONE XTEXPR_TYPE_NONE; MX 200 7 7] 0 =
  Done (5, 1%nat) [RdNode 0; RdField 3; RdField 3].
Proof.
  apply (X3_outcome_is_local false skb_5_8_9 [mx_field XTEXPR_TYPE_NFMARK]).
  - reflexivity.
  - intros j Hj. assert (j = 0%nat) as -> by lia. reflexivity.
Defined.

(** X4.  A block that evaluates from an index can be placed inside a larger
    one, after any nodes and before any others: from the index moved by the
    number of nodes put before, the call returns the same value, the
    pointer and the loads moved by as much, and reads the same registers.
    In particular nodes after the end of an expression are never noticed. *)
Theorem X4_block_inside_block big_endian skb pre blk post i v n tr :
  xt_expr_eval big_endian skb blk i = Done (v, n) tr ->
  xt_expr_eval big_endian skb (pre ++ blk ++ post) (length pre + i) =
  Done (v, (length pre + n)%nat) (shift_trace (length pre) tr).
Proof.
  intros H. apply xt_expr_eval_shift with (blk := blk); trivial.
  apply same_window_app.
  now apply (xt_expr_eval_advances big_endian skb blk i v n tr (Nat.le_0_l _)).
Qed.

Lemma X4_witness :
  xt_expr_eval false skb_5_8_9
    ([MX 200 7 7] ++
     blk_fields XTEXPR_OP_SUB XTEXPR_TYPE_CTMARK XTEXPR_TYPE_NFMARK ++
     [MX XTEXPR_OP_DIV 0 0]) 1 =
  Done (4, 4%nat)
    [RdNode 1; RdNode 2; RdField 4; RdField 4; RdNode 3; RdField 3; RdField 3].
Proof.
  apply (X4_block_inside_block false skb_5_8_9 [MX 200 7 7]
           (blk_fields XTEXPR_OP_SUB XTEXPR_TYPE_CTMARK XTEXPR_TYPE_NFMARK)
           [MX XTEXPR_OP_DIV 0 0] 0 4 3
           [RdNode 0; RdNode 1; RdField 4; RdField 4;
            RdNode 2; RdField 3; RdField 3]).
  reflexivity.
Defined.

(** X5.  The preorder layout composes: a node without immediate flags whose
    two slots are [XTEXPR_TYPE_SUB], followed by a block that evaluates to
    [v1] and by a block that evaluates to [v2], each to its own end,
    evaluates to its operator applied to [v1] and [v2], ends at the end of
    the second block, and has walked node, first block, second block in
    that order. *)
Theorem X5_preorder_composition big_endian skb o b1 b2 v1 v2 t1 t2 :
  flag_set o XTEXPR_LHIMM = false ->
  flag_set o XTEXPR_RHIMM = false ->
  xt_expr_eval big_endian skb b1 0 = Done (v1, length b1) t1 ->
  xt_expr_eval big_endian skb b2 0 = Done (v2, length b2) t2 ->
  xt_expr_eval big_endian skb
    (MX o XTEXPR_TYPE_SUB XTEXPR_TYPE_SUB :: b1 ++ b2) 0 =
  match xt_expr_switch (Z.land o XTEXPR_OPMASK) v1 v2 with
  | Done res _ =>
      Done (res, S (length b1 + length b2))
           (RdNode 0 :: shift_trace 1 t1 ++ shift_trace (S (length b1)) t2)
  | Abort f => Abort f
  | OutOfFuel => OutOfFuel
  end.
Proof. apply xt_expr_eval_over_two. Qed.

(** (ctmark - mark) * mark = (9 - 5) * 5 *)
Lemma X5_witness :
  xt_expr_eval false skb_5_8_9
    (MX XTEXPR_OP_MUL XTEXPR_TYPE_SUB XTEXPR_TYPE_SUB ::
     blk_fields XTEXPR_OP_SUB XTEXPR_TYPE_CTMARK XTEXPR_TYPE_NFMARK ++
     [mx_field XTEXPR_TYPE_NFMARK]) 0 =
  Done (20, 5%nat)
    [RdNode 0; RdNode 1; RdNode 2; RdField 4; RdField 4; RdNode 3; RdField 3;
     RdField 3; RdNode 4; RdField 3; RdField 3].
Proof.
  apply (X5_preorder_composition false skb_5_8_9 XTEXPR_OP_MUL
           (blk_fields XTEXPR_OP_SUB XTEXPR_TYPE_CTMARK XTEXPR_TYPE_NFMARK)
           [mx_field XTEXPR_TYPE_NFMARK] 4 5
           [RdNode 0; RdNode 1; RdField 4; RdField 4;
            RdNode 2; RdField 3; RdField 3]
           [RdNode 0; RdField 3; RdField 3]); reflexivity.
Defined.

(** X6.  On a packet and a block whose fields fit their C types, every
    value a call returns fits [uintxp_t]: it lies in [[0, 2^32)]. *)
Theorem X6_values_fit_uintxp big_endian skb blk mx v n tr :
  skb_ok skb ->
  Forall micro_ok blk ->
  xt_expr_eval big_endian skb blk mx = Done (v, n) tr ->
  0 <= v < 2 ^ 32.
Proof. intros Hs Hb H. exact (xt_expr_eval_uintxp _ _ _ Hs Hb _ _ _ _ H). Qed.

(** mark - ctmark = 5 - 9 *)
Lemma X6_witness :
  xt_expr_eval false skb_5_8_9
    (blk_fields XTEXPR_OP_SUB XTEXPR_TYPE_NFMARK XTEXPR_TYPE_CTMARK) 0 =
    Done (2 ^ 32 - 4, 3%nat)
      [RdNode 0; RdNode 1; RdField 3; RdField 3;
       RdNode 2; RdField 4; RdField 4] /\
  0 <= 2 ^ 32 - 4 < 2 ^ 32.
Proof.
  split; [reflexivity|].
  apply (X6_values_fit_uintxp false skb_5_8_9
           (blk_fields XTEXPR_OP_SUB XTEXPR_TYPE_NFMARK XTEXPR_TYPE_CTMARK)
           0 (2 ^ 32 - 4) 3
           [RdNode 0; RdNode 1; RdField 3; RdField 3;
            RdNode 2; RdField 4; RdField 4]).
  - repeat split; vm_compute; congruence.
  - repeat constructor; vm_compute; congruence.
  - reflexivity.
Defined.

(** X7.  A call on a node that carries an immediate flag returns 0 if it
    returns: the mask leaves the flag in the selector of the [switch], and
    no operator is applied to an immediate operand. *)
Theorem X7_flagged_call_returns_zero big_endian skb blk mx m v n tr :
  nth_error blk mx = Some m ->
  0 <= op m < 256 ->
  flag_set (op m) XTEXPR_LHIMM = true \/ flag_set (op m) XTEXPR_RHIMM = true ->
  xt_expr_eval big_endian skb blk mx = Done (v, n) tr ->
  v = 0.
Proof.
  intros Hm Hop Hf H.
  apply xt_expr_eval_Done in H as (m' & l & r & t & Hm' & _ & Hsw & _).
  rewrite Hm in Hm'. injection Hm' as <-.
  rewrite xt_expr_switch_default in Hsw by now apply flagged_selector.
  now injection Hsw as <-.
Qed.

(** 7 * 6 with both immediate flags *)
Lemma X7_witness :
  xt_expr_eval false skb_5_8_9 [MX (op_imm XTEXPR_OP_MUL) 7 6] 0 =
    Done (0, 1%nat) [RdNode 0] /\
  0 = 0.
Proof.
  split; [reflexivity|].
  apply (X7_flagged_call_returns_zero false skb_5_8_9
           [MX (op_imm XTEXPR_OP_MUL) 7 6] 0 (MX (op_imm XTEXPR_OP_MUL) 7 6)
           0 1 [RdNode 0]).
  - reflexivity.
  - cbn. lia.
  - left. reflexivity.
  - reflexivity.
Defined.

(** X8.  With a right-hand value other than zero, [DIV] and [MOD] store the
    quotient rounded down and the remainder of one and the same division:
    quotient times divisor plus remainder is the left-hand value, and the
    remainder is less than the divisor. *)
Theorem X8_quotient_and_remainder big_endian skb blk mx m l r n tr :
  nth_error blk mx = Some m ->
  xt_expr_operands big_endian (xt_expr_eval big_endian skb blk) skb m mx =
    Done (l, r, n) tr ->
  0 <= l -> 0 < r ->
  exists q d,
    (Z.land (op m) XTEXPR_OPMASK = XTEXPR_OP_DIV ->
     xt_expr_eval big_endian skb blk mx = Done (q, n) (RdNode mx :: tr)) /\
    (Z.land (op m) XTEXPR_OPMASK = XTEXPR_OP_MOD ->
     xt_expr_eval big_endian skb blk mx = Done (d, n) (RdNode mx :: tr)) /\
    l = q * r + d /\ 0 <= d < r /\ 0 <= q <= l.
Proof.
  intros Hm Hops Hl Hr. exists (l / r), (l mod r).
  rewrite (xt_expr_eval_node _ _ _ _ _ _ _ _ _ Hm Hops).
  assert (E : (r =? 0) = false) by (apply Z.eqb_neq; lia).
  repeat split.
  - intros ->. unfold xt_expr_switch. cbn. now rewrite E.
  - intros ->. unfold xt_expr_switch. cbn. now rewrite E.
  - rewrite Z.mul_comm. apply Z.div_mod. lia.
  - now apply Z.mod_pos_bound.
  - now apply Z.mod_pos_bound.
  - apply Z.div_pos; lia.
  - apply Z.div_le_upper_bound; nia.
Qed.

(** ctmark / mark = 9 / 5 *)
Lemma X8_witness :
  exists q d,
    (Z.land XTEXPR_OP_DIV XTEXPR_OPMASK = XTEXPR_OP_DIV ->
     xt_expr_eval false skb_5_8_9
       (blk_fields XTEXPR_OP_DIV XTEXPR_TYPE_CTMARK XTEXPR_TYPE_NFMARK) 0 =
     Done (q, 3%nat)
       [RdNode 0; RdNode 1; RdField 4; RdField 4;
        RdNode 2; RdField 3; RdField 3]) /\
    (Z.land XTEXPR_OP_DIV XTEXPR_OPMASK = XTEXPR_OP_MOD ->
     xt_expr_eval false skb_5_8_9
       (blk_fields XTEXPR_OP_DIV XTEXPR_TYPE_CTMARK XTEXPR_TYPE_NFMARK) 0 =
     Done (d, 3%nat)
       [RdNode 0; RdNode 1; RdField 4; RdField 4;
        RdNode 2; RdField 3; RdField 3]) /\
    9 = q * 5 + d /\ 0 <= d < 5 /\ 0 <= q <= 9.
Proof.
  apply (X8_quotient_and_remainder false skb_5_8_9
           (blk_fields XTEXPR_OP_DIV XTEXPR_TYPE_CTMARK XTEXPR_TYPE_NFMARK)
           0 (MX XTEXPR_OP_DIV XTEXPR_TYPE_SUB XTEXPR_TYPE_SUB) 9 5 3
           [RdNode 1; RdField 4; RdField 4; RdNode 2; RdField 3; RdField 3]);
    [reflexivity|reflexivity|lia|lia].
Defined.

(** X9.  [SHL] and [SHR] have no test of the count: the call returns for
    every count, with the pointer of its operands.  With a count below 32,
    [SHL] stores the left value times 2^count modulo 2^32 and [SHR] the
    left value divided by 2^count. *)
Theorem X9_shift_counts big_endian skb blk mx m l r n tr :
  nth_error blk mx = Some m ->
  xt_expr_operands big_endian (xt_expr_eval big_endian skb blk) skb m mx =
    Done (l, r, n) tr ->
  0 <= r ->
  (Z.land (op m) XTEXPR_OPMASK = XTEXPR_OP_SHL \/
   Z.land (op m) XTEXPR_OPMASK = XTEXPR_OP_SHR ->
   exists v,
     xt_expr_eval big_endian skb blk mx = Done (v, n) (RdNode mx :: tr)) /\
  (r < 32 ->
   (Z.land (op m) XTEXPR_OPMASK = XTEXPR_OP_SHL ->
    xt_expr_eval big_endian skb blk mx =
    Done ((l * 2 ^ r) mod 2 ^ 32, n) (RdNode mx :: tr)) /\
   (Z.land (op m) XTEXPR_OPMASK = XTEXPR_OP_SHR ->
    xt_expr_eval big_endian skb blk mx =
    Done (l / 2 ^ r, n) (RdNode mx :: tr))).
Proof.
  intros Hm Hops Hr.
  rewrite (xt_expr_eval_node _ _ _ _ _ _ _ _ _ Hm Hops).
  split.
  - intros [-> | ->]; eexists; reflexivity.
  - intros Hsmall.
    assert (E : r mod uintxp_bits = r)
      by (apply Z.mod_small; unfold uintxp_bits; lia).
    split; intros ->.
    + change (xt_expr_switch XTEXPR_OP_SHL l r)
        with (ret (uintxp (Z.shiftl l (r mod uintxp_bits)))).
      rewrite E, Z.shiftl_mul_pow2 by trivial. reflexivity.
    + change (xt_expr_switch XTEXPR_OP_SHR l r)
        with (ret (Z.shiftr l (r mod uintxp_bits))).
      rewrite E, Z.shiftr_div_pow2 by trivial. reflexivity.
Qed.

(** ctmark << mark = 9 << 5 *)
Lemma X9_witness :
  xt_expr_eval false skb_5_8_9
    (blk_fields XTEXPR_OP_SHL XTEXPR_TYPE_CTMARK XTEXPR_TYPE_NFMARK) 0 =
  Done (288, 3%nat)
    [RdNode 0; RdNode 1; RdField 4; RdField 4; RdNode 2; RdField 3; RdField 3].
Proof.
  apply (proj1 (proj2 (X9_shift_counts false skb_5_8_9
           (blk_fields XTEXPR_OP_SHL XTEXPR_TYPE_CTMARK XTEXPR_TYPE_NFMARK)
           0 (MX XTEXPR_OP_SHL XTEXPR_TYPE_SUB XTEXPR_TYPE_SUB) 9 5 3
           [RdNode 1; RdField 4; RdField 4; RdNode 2; RdField 3; RdField 3]
           eq_refl eq_refl ltac:(lia)) ltac:(lia))).
  reflexivity.
Defined.

(** X10.  A call on a node whose selector is a relational or a logical
    operator ([LT] to [LOR]) returns 0 or 1 if it returns, whatever the
    operand values. *)
Theorem X10_relational_zero_or_one big_endian skb blk mx m v n tr :
  nth_error blk mx = Some m ->
  XTEXPR_OP_LT <= Z.land (op m) XTEXPR_OPMASK <= XTEXPR_OP_LOR ->
  xt_expr_eval big_endian skb blk mx = Done (v, n) tr ->
  v = 0 \/ v = 1.
Proof.
  intros Hm Hsel H.
  apply xt_expr_eval_Done in H as (m' & l & r & t & Hm' & _ & Hsw & _).
  rewrite Hm in Hm'. injection Hm' as <-.
  destruct (xt_expr_switch_boolean _ l r Hsel) as [E|E];
    rewrite E in Hsw; injection Hsw as <-; [now left|now right].
Qed.

(** ctmark >= mark *)
Lemma X10_witness :
  xt_expr_eval false skb_5_8_9
    (blk_fields XTEXPR_OP_GE XTEXPR_TYPE_CTMARK XTEXPR_TYPE_NFMARK) 0 =
    Done (1, 3%nat)
      [RdNode 0; RdNode 1; RdField 4; RdField 4;
       RdNode 2; RdField 3; RdField 3] /\
  (1 = 0 \/ 1 = 1).
Proof.
  split; [reflexivity|].
  apply (X10_relational_zero_or_one false skb_5_8_9
           (blk_fields XTEXPR_OP_GE XTEXPR_TYPE_CTMARK XTEXPR_TYPE_NFMARK)
           0 (MX XTEXPR_OP_GE XTEXPR_TYPE_SUB XTEXPR_TYPE_SUB) 1 3
           [RdNode 0; RdNode 1; RdField 4; RdField 4;
            RdNode 2; RdField 3; RdField 3]).
  - reflexivity.
  - split; vm_compute; congruence.
  - reflexivity.
Defined.

(** X11.  The unary operators store a function of the left-hand value; the
    right-hand value, though resolved, does not enter it: [NONE] stores the
    left value, [LNOT] 1 for the left value 0 and 0 otherwise, [NOT] the
    complement of the left value in 32 bits. *)
Theorem X11_unary_operators big_endian skb blk mx m l r n tr :
  nth_error blk mx = Some m ->
  xt_expr_operands big_endian (xt_expr_eval big_endian skb blk) skb m mx =
    Done (l, r, n) tr ->
  (Z.land (op m) XTEXPR_OPMASK = XTEXPR_OP_NONE ->
   xt_expr_eval big_endian skb blk mx = Done (l, n) (RdNode mx :: tr)) /\
  (Z.land (op m) XTEXPR_OPMASK = XTEXPR_OP_LNOT ->
   xt_expr_eval big_endian skb blk mx =
   Done (if l =? 0 then 1 else 0, n) (RdNode mx :: tr)) /\
  (Z.land (op m) XTEXPR_OPMASK = XTEXPR_OP_NOT ->
   xt_expr_eval big_endian skb blk mx =
   Done ((2 ^ 32 - 1 - l) mod 2 ^ 32, n) (RdNode mx :: tr)).
Proof.
  intros Hm Hops.
  rewrite (xt_expr_eval_node _ _ _ _ _ _ _ _ _ Hm Hops).
  repeat split; intros ->.
  - reflexivity.
  - change (xt_expr_switch XTEXPR_OP_LNOT l r) with (ret (Z.b2z (l =? 0))).
    unfold ret. now destruct (l =? 0).
  - change (xt_expr_switch XTEXPR_OP_NOT l r) with (ret (uintxp (Z.lnot l))).
    unfold ret, uintxp, uintxp_modulus, uintxp_bits. do 2 f_equal.
    replace (Z.lnot l) with (2 ^ 32 - 1 - l + -1 * 2 ^ 32)
      by (unfold Z.lnot; lia).
    apply Z.mod_add. discriminate.
Qed.

(** ~ctmark = 2^32 - 1 - 9, with the mark on the right *)
Lemma X11_witness :
  xt_expr_eval false skb_5_8_9
    (blk_fields XTEXPR_OP_NOT XTEXPR_TYPE_CTMARK XTEXPR_TYPE_NFMARK) 0 =
  Done (2 ^ 32 - 10, 3%nat)
    [RdNode 0; RdNode 1; RdField 4; RdField 4; RdNode 2; RdField 3; RdField 3].
Proof.
  apply (proj2 (proj2 (X11_unary_operators false skb_5_8_9
           (blk_fields XTEXPR_OP_NOT XTEXPR_TYPE_CTMARK XTEXPR_TYPE_NFMARK)
           0 (MX XTEXPR_OP_NOT XTEXPR_TYPE_SUB XTEXPR_TYPE_SUB) 9 5 3
           [RdNode 1; RdField 4; RdField 4; RdNode 2; RdField 3; RdField 3]
           eq_refl eq_refl))).
  reflexivity.
Defined.

(** X12.  "a != b" and "!(a == b)" (xt_expr.h: "encoding !(a==b) for a!=b
    would be really costly in space"): over two blocks that evaluate to
    [v1] and [v2], the [NE] node and the [LNOT] node over the [EQ] node
    return the same value, 1 where the two values differ and 0 where they
    are equal; the second encoding is one node longer. *)
Theorem X12_ne_is_lnot_of_eq big_endian skb z b1 b2 v1 v2 t1 t2 :
  z <> XTEXPR_TYPE_SUB ->
  xt_expr_eval big_endian skb b1 0 = Done (v1, length b1) t1 ->
  xt_expr_eval big_endian skb b2 0 = Done (v2, length b2) t2 ->
  exists tr tr',
    xt_expr_eval big_endian skb
      (MX XTEXPR_OP_NE XTEXPR_TYPE_SUB XTEXPR_TYPE_SUB :: b1 ++ b2) 0 =
    Done (if v1 =? v2 then 0 else 1, S (length b1 + length b2)) tr /\
    xt_expr_eval big_endian skb
      (MX XTEXPR_OP_LNOT XTEXPR_TYPE_SUB z ::
       MX XTEXPR_OP_EQ XTEXPR_TYPE_SUB XTEXPR_TYPE_SUB :: b1 ++ b2) 0 =
    Done (if v1 =? v2 then 0 else 1, S (S (length b1 + length b2))) tr'.
Proof.
  intros Hz H1 H2.
  pose proof (xt_expr_eval_over_two big_endian skb XTEXPR_OP_NE
                b1 b2 v1 v2 t1 t2 eq_refl eq_refl H1 H2) as Hne.
  pose proof (xt_expr_eval_over_two big_endian skb XTEXPR_OP_EQ
                b1 b2 v1 v2 t1 t2 eq_refl eq_refl H1 H2) as Heq.
  change (xt_expr_switch (Z.land XTEXPR_OP_NE XTEXPR_OPMASK) v1 v2)
    with (ret (Z.b2z (negb (v1 =? v2)))) in Hne.
  change (xt_expr_switch (Z.land XTEXPR_OP_EQ XTEXPR_OPMASK) v1 v2)
    with (ret (Z.b2z (v1 =? v2))) in Heq.
  unfold ret in Hne, Heq.
  replace (S (length b1 + length b2)) with
    (length (MX XTEXPR_OP_EQ XTEXPR_TYPE_SUB XTEXPR_TYPE_SUB :: b1 ++ b2))
    in Heq by (cbn [length]; now rewrite length_app).
  pose proof (xt_expr_eval_over_one big_endian skb XTEXPR_OP_LNOT z _ _ _
                eq_refl eq_refl Hz Heq) as Hnot.
  change (xt_expr_switch (Z.land XTEXPR_OP_LNOT XTEXPR_OPMASK)
            (Z.b2z (v1 =? v2)) (xt_expr_rvalue big_endian skb z))
    with (ret (Z.b2z (Z.b2z (v1 =? v2) =? 0))) in Hnot.
  unfold ret in Hnot. cbn [length] in Hnot. rewrite length_app in Hnot.
  eexists. eexists. split.
  - rewrite Hne. now destruct (v1 =? v2).
  - rewrite Hnot. now destruct (v1 =? v2).
Qed.

(** ctmark != mark *)
Lemma X12_witness :
  exists tr tr',
    xt_expr_eval false skb_5_8_9
      (MX XTEXPR_OP_NE XTEXPR_TYPE_SUB XTEXPR_TYPE_SUB ::
       [mx_field XTEXPR_TYPE_CTMARK] ++ [mx_field XTEXPR_TYPE_NFMARK]) 0 =
    Done (1, 3%nat) tr /\
    xt_expr_eval false skb_5_8_9
      (MX XTEXPR_OP_LNOT XTEXPR_TYPE_SUB XTEXPR_TYPE_NONE ::
       MX XTEXPR_OP_EQ XTEXPR_TYPE_SUB XTEXPR_TYPE_SUB ::
       [mx_field XTEXPR_TYPE_CTMARK] ++ [mx_field XTEXPR_TYPE_NFMARK]) 0 =
    Done (1, 4%nat) tr'.
Proof.
  apply (X12_ne_is_lnot_of_eq false skb_5_8_9 XTEXPR_TYPE_NONE
           [mx_field XTEXPR_TYPE_CTMARK] [mx_field XTEXPR_TYPE_NFMARK] 9 5
           [RdNode 0; RdField 4; RdField 4] [RdNode 0; RdField 3; RdField 3]).
  - discriminate.
  - reflexivity.
  - reflexivity.
Defined.

(** X13.  [NE] as the logical exclusive or (xt_expr.h: "XTEXPR_OP_LXOR ==
    XTEXPR_OP_NE"): where both operand values are 0 or 1, as the relational
    and logical operators return them, the [NE] node stores 1 exactly when
    one of the two is nonzero and the other is not. *)
Theorem X13_ne_is_logical_xor big_endian skb blk mx m l r n tr :
  nth_error blk mx = Some m ->
  Z.land (op m) XTEXPR_OPMASK = XTEXPR_OP_NE ->
  xt_expr_operands big_endian (xt_expr_eval big_endian skb blk) skb m mx =
    Done (l, r, n) tr ->
  l = 0 \/ l = 1 ->
  r = 0 \/ r = 1 ->
  xt_expr_eval big_endian skb blk mx =
  Done (Z.b2z (xorb (negb (l =? 0)) (negb (r =? 0))), n) (RdNode mx :: tr).
Proof.
  intros Hm Hsel Hops Hl Hr.
  rewrite (xt_expr_eval_node _ _ _ _ _ _ _ _ _ Hm Hops), Hsel.
  destruct Hl as [-> | ->], Hr as [-> | ->]; reflexivity.
Qed.

(** (ctmark > mark) xor (mark > ctmark) *)
Lemma X13_witness :
  xt_expr_eval false skb_5_8_9
    (MX XTEXPR_OP_NE XTEXPR_TYPE_SUB XTEXPR_TYPE_SUB ::
     blk_fields XTEXPR_OP_GT XTEXPR_TYPE_CTMARK XTEXPR_TYPE_NFMARK ++
     blk_fields XTEXPR_OP_GT XTEXPR_TYPE_NFMARK XTEXPR_TYPE_CTMARK) 0 =
  Done (1, 7%nat)
    [RdNode 0;
     RdNode 1; RdNode 2; RdField 4; RdField 4; RdNode 3; RdField 3; RdField 3;
     RdNode 4; RdNode 5; RdField 3; RdField 3; RdNode 6; RdField 4; RdField 4].
Proof.
  apply (X13_ne_is_logical_xor false skb_5_8_9 _ 0
           (MX XTEXPR_OP_NE XTEXPR_TYPE_SUB XTEXPR_TYPE_SUB) 1 0 7
           [RdNode 1; RdNode 2; RdField 4; RdField 4; RdNode 3; RdField 3;
            RdField 3; RdNode 4; RdNode 5; RdField 3; RdField 3; RdNode 6;
            RdField 4; RdField 4]).
  - reflexivity.
  - reflexivity.
  - reflexivity.
  - now right.
  - now left.
Defined.

(** X14.  [NEG] and [NOT] undo themselves: over a block that evaluates to a
    value [v] of [uintxp_t], two [NEG] nodes, or two [NOT] nodes, each with
    the next node as its left subexpression, return [v] again, two nodes
    further. *)
Theorem X14_neg_and_not_are_involutions big_endian skb z z' b v t :
  z <> XTEXPR_TYPE_SUB ->
  z' <> XTEXPR_TYPE_SUB ->
  xt_expr_eval big_endian skb b 0 = Done (v, length b) t ->
  0 <= v < 2 ^ 32 ->
  (exists tr,
      xt_expr_eval big_endian skb
        (MX XTEXPR_OP_NEG XTEXPR_TYPE_SUB z ::
         MX XTEXPR_OP_NEG XTEXPR_TYPE_SUB z' :: b) 0 =
      Done (v, S (S (length b))) tr) /\
  (exists tr,
      xt_expr_eval big_endian skb
        (MX XTEXPR_OP_NOT XTEXPR_TYPE_SUB z ::
         MX XTEXPR_OP_NOT XTEXPR_TYPE_SUB z' :: b) 0 =
      Done (v, S (S (length b))) tr).
Proof.
  intros Hz Hz' Hb Hv. split.
  - pose proof (xt_expr_eval_over_one big_endian skb XTEXPR_OP_NEG z' b v t
                  eq_refl eq_refl Hz' Hb) as H1.
    change (xt_expr_switch (Z.land XTEXPR_OP_NEG XTEXPR_OPMASK) v
              (xt_expr_rvalue big_endian skb z'))
      with (ret (uintxp (- v))) in H1.
    unfold ret in H1.
    pose proof (xt_expr_eval_over_one big_endian skb XTEXPR_OP_NEG z
                  (MX XTEXPR_OP_NEG XTEXPR_TYPE_SUB z' :: b) _ _
                  eq_refl eq_refl Hz H1) as H2.
    change (xt_expr_switch (Z.land XTEXPR_OP_NEG XTEXPR_OPMASK)
              (uintxp (- v)) (xt_expr_rvalue big_endian skb z))
      with (ret (uintxp (- uintxp (- v)))) in H2.
    unfold ret in H2. eexists. rewrite H2. do 2 f_equal.
    unfold uintxp, uintxp_modulus, uintxp_bits.
    change (- (- v mod 2 ^ 32)) with (0 - (- v) mod 2 ^ 32).
    rewrite Zminus_mod_idemp_r. replace (0 - - v) with v by lia.
    now apply Z.mod_small.
  - pose proof (xt_expr_eval_over_one big_endian skb XTEXPR_OP_NOT z' b v t
                  eq_refl eq_refl Hz' Hb) as H1.
    change (xt_expr_switch (Z.land XTEXPR_OP_NOT XTEXPR_OPMASK) v
              (xt_expr_rvalue big_endian skb z'))
      with (ret (uintxp (Z.lnot v))) in H1.
    unfold ret in H1.
    pose proof (xt_expr_eval_over_one big_endian skb XTEXPR_OP_NOT z
                  (MX XTEXPR_OP_NOT XTEXPR_TYPE_SUB z' :: b) _ _
                  eq_refl eq_refl Hz H1) as H2.
    change (xt_expr_switch (Z.land XTEXPR_OP_NOT XTEXPR_OPMASK)
              (uintxp (Z.lnot v)) (xt_expr_rvalue big_endian skb z))
      with (ret (uintxp (Z.lnot (uintxp (Z.lnot v))))) in H2.
    unfold ret in H2. eexists. rewrite H2. do 2 f_equal.
    unfold uintxp, uintxp_modulus, uintxp_bits.
    assert (E : Z.lnot v mod 2 ^ 32 = 2 ^ 32 - 1 - v).
    { replace (Z.lnot v) with (2 ^ 32 - 1 - v + -1 * 2 ^ 32)
        by (unfold Z.lnot; lia).
      rewrite Z.mod_add by discriminate. apply Z.mod_small. lia. }
    rewrite E. replace (Z.lnot (2 ^ 32 - 1 - v)) with (v + -1 * 2 ^ 32)
      by (unfold Z.lnot; lia).
    rewrite Z.mod_add by discriminate. now apply Z.mod_small.
Qed.

(** -(-mark) and ~~mark, for the mark 5 *)
Lemma X14_witness :
  (exists tr,
      xt_expr_eval false skb_5_8_9
        [MX XTEXPR_OP_NEG XTEXPR_TYPE_SUB XTEXPR_TYPE_NONE;
         MX XTEXPR_OP_NEG XTEXPR_TYPE_SUB XTEXPR_TYPE_NONE;
         mx_field XTEXPR_TYPE_NFMARK] 0 = Done (5, 3%nat) tr) /\
  (exists tr,
      xt_expr_eval false skb_5_8_9
        [MX XTEXPR_OP_NOT XTEXPR_TYPE_SUB XTEXPR_TYPE_NONE;
         MX XTEXPR_OP_NOT XTEXPR_TYPE_SUB XTEXPR_TYPE_NONE;
         mx_field XTEXPR_TYPE_NFMARK] 0 = Done (5, 3%nat) tr).
Proof.
  apply (X14_neg_and_not_are_involutions false skb_5_8_9
           XTEXPR_TYPE_NONE XTEXPR_TYPE_NONE [mx_field XTEXPR_TYPE_NFMARK] 5
           [RdNode 0; RdField 3; RdField 3]).
  - discriminate.
  - discriminate.
  - reflexivity.
  - lia.
Defined.

(** X15.  Reads past the block.  A call on an index at or past the end of
    the block, and so any call on an empty block, is a load out of bounds.
    So is a call on the last node of a block when one of its operands is a
    subexpression: the evaluator does not know the length of the block and
    descends into the node after the last. *)
Theorem X15_reads_past_the_block big_endian skb blk mx :
  ((length blk <= mx)%nat ->
   xt_expr_eval big_endian skb blk mx = Abort (OutOfBounds mx)) /\
  (forall m,
      nth_error blk mx = Some m ->
      S mx = length blk ->
      lh_is_sub m = true \/ rh_is_sub m = true ->
      xt_expr_eval big_endian skb blk mx = Abort (OutOfBounds (length blk))).
Proof.
  split; [apply xt_expr_eval_past_end|].
  intros m Hm Hlast Hsub.
  apply (xt_expr_eval_node_Abort big_endian skb blk mx m); trivial.
  assert (Hend : xt_expr_eval big_endian skb blk (S mx) =
                 Abort (OutOfBounds (length blk))).
  { rewrite xt_expr_eval_past_end by lia. now rewrite Hlast. }
  unfold xt_expr_operands, xt_expr_lh.
  unfold lh_is_sub, rh_is_sub in Hsub.
  destruct (flag_set (op m) XTEXPR_LHIMM) eqn:Fl.
  - destruct Hsub as [Hsub|Hsub]; [discriminate|].
    apply andb_prop in Hsub as [Hf Hs]. apply negb_true_iff in Hf.
    cbn [bind ret]. unfold xt_expr_rh. rewrite Hf, Hs.
    now rewrite Hend.
  - destruct (lh m =? XTEXPR_TYPE_SUB) eqn:Sl.
    + now rewrite Hend.
    + destruct Hsub as [Hsub|Hsub]; [discriminate|].
      apply andb_prop in Hsub as [Hf Hs]. apply negb_true_iff in Hf.
      rewrite read_field_Done. cbn [bind ret].
      unfold xt_expr_rh. rewrite Hf, Hs. now rewrite Hend.
Qed.

(** The empty block, and "mark + (...)" with nothing after it. *)
Lemma X15_witness :
  xt_expr_eval false skb_5_8_9 [] 0 = Abort (OutOfBounds 0) /\
  xt_expr_eval false skb_5_8_9
    [MX XTEXPR_OP_ADD XTEXPR_TYPE_NFMARK XTEXPR_TYPE_SUB] 0 =
  Abort (OutOfBounds 1).
Proof.
  split.
  - apply (proj1 (X15_reads_past_the_block false skb_5_8_9 [] 0)). cbn. lia.
  - apply (proj2 (X15_reads_past_the_block false skb_5_8_9
                    [MX XTEXPR_OP_ADD XTEXPR_TYPE_NFMARK XTEXPR_TYPE_SUB] 0)
                 (MX XTEXPR_OP_ADD XTEXPR_TYPE_NFMARK XTEXPR_TYPE_SUB)).
    + reflexivity.
    + reflexivity.
    + right. reflexivity.
Defined.

(** X16.  A call that returns depends on the packet, and on the byte order
    of the host, through the registers in its trace only: a packet that
    gives the same value for each register that was read gives the same
    value, pointer and trace. *)
Theorem X16_packet_enters_through_registers
    big_endian big_endian' skb skb' blk mx v n tr :
  xt_expr_eval big_endian skb blk mx = Done (v, n) tr ->
  (forall reg, In (RdField reg) tr ->
     xt_expr_rvalue big_endian' skb' reg = xt_expr_rvalue big_endian skb reg) ->
  xt_expr_eval big_endian' skb' blk mx = Done (v, n) tr.
Proof.
  intros H Hf. unfold xt_expr_eval in *.
  now apply (descend_fields big_endian big_endian' skb skb').
Qed.

(** mark * mark on two packets with the mark 5, of different protocol and
    connection, on hosts of different byte order *)
Lemma X16_witness :
  xt_expr_eval true (SKB 5 2048 None)
    (blk_fields XTEXPR_OP_MUL XTEXPR_TYPE_NFMARK XTEXPR_TYPE_NFMARK) 0 =
  Done (25, 3%nat)
    [RdNode 0; RdNode 1; RdField 3; RdField 3; RdNode 2; RdField 3; RdField 3].
Proof.
  apply (X16_packet_enters_through_registers false true skb_5_8_9).
  - reflexivity.
  - intros reg Hin. cbn in Hin.
    repeat (destruct Hin as [Hin|Hin];
            [try discriminate; injection Hin as <-; reflexivity|]).
    contradiction.
Defined.

(** ** What stops a call *)

Lemma bind_Abort {A B} (m : outcome A) (k : A -> outcome B) f :
  bind m k = Abort f ->
  m = Abort f \/ exists a t, m = Done a t /\ k a = Abort f.
Proof.
  unfold bind. destruct m as [a t|f'|]; try discriminate.
  - destruct (k a) as [b t'|f'|] eqn:E; try discriminate.
    intros [= <-]. right. now exists a, t.
  - intros [= <-]. now left.
Qed.

Lemma xt_expr_switch_Abort sel l r f :
  xt_expr_switch sel l r = Abort f ->
  f = DivideError /\ r = 0 /\
  (sel = XTEXPR_OP_DIV \/ sel = XTEXPR_OP_MOD).
Proof.
  unfold xt_expr_switch, ret.
  repeat match goal with
         | |- context [if ?a =? ?b then _ else _] =>
             destruct (Z.eqb_spec a b)
         end; try discriminate; intros [= <-]; auto.
Qed.

Section Stops.

Variable big_endian : bool.
Variable skb : sk_buff.
Variable blk : list xt_expr_micro.

(** How a call that does not return came to its end: at the [switch] of a
    node of the block, or at the load of the node at the end of the
    block. *)
Lemma descend_Abort fuel mx f :
  (mx <= length blk)%nat ->
  xt_expr_descend big_endian fuel skb blk mx = Abort f ->
  f = OutOfBounds (length blk) \/
  exists m l r,
    In m blk /\ xt_expr_switch (Z.land (op m) XTEXPR_OPMASK) l r = Abort f.
Proof.
  revert mx f. induction fuel as [|fuel IH]; intros mx f Hmx H;
    [discriminate|].
  cbn [xt_expr_descend] in H.
  apply bind_Abort in H as [H|(m & t & Hm & H)].
  - unfold load in H. destruct (nth_error blk mx) eqn:E; [discriminate|].
    injection H as <-. left. f_equal.
    apply nth_error_None in E. lia.
  - apply load_Done in Hm as (Hm & _ & Hlt).
    apply bind_Abort in H as [H|([[l r] n] & t' & _ & H)].
    + unfold xt_expr_operands in H.
      apply bind_Abort in H as [H|([l n1] & t1 & Hl & H)].
      * revert H. unfold xt_expr_lh.
        destruct (flag_set (op m) XTEXPR_LHIMM); [discriminate|].
        destruct (lh m =? XTEXPR_TYPE_SUB); [|discriminate].
        apply IH. lia.
      * assert (Hn1 : (n1 <= length blk)%nat).
        { apply xt_expr_lh_Done in Hl as [[-> _]|Hl]; [lia|].
          eapply xt_expr_descend_advances in Hl; [|apply Nat.le_0_l]. lia. }
        apply bind_Abort in H as [H|([r n2] & t2 & _ & H)];
          [|discriminate].
        revert H. unfold xt_expr_rh.
        destruct (flag_set (op m) XTEXPR_RHIMM); [discriminate|].
        destruct (rh m =? XTEXPR_TYPE_SUB); [|discriminate].
        now apply IH.
    + apply bind_Abort in H as [H|(res & t'' & _ & H)]; [|discriminate].
      right. exists m, l, r. split; trivial. eapply nth_error_In, Hm.
Qed.

End Stops.

(** X18.  Only the division can stop a call inside the block.  A call from
    inside the block, or from its end, that does not return has either
    read the node right after the block or divided by zero, and then the
    block has a node whose selector is [DIV] or [MOD]. *)
Theorem X18_only_division_stops big_endian skb blk mx f :
  (mx <= length blk)%nat ->
  xt_expr_eval big_endian skb blk mx = Abort f ->
  f = OutOfBounds (length blk) \/
  (f = DivideError /\
   exists m, In m blk /\
     (Z.land (op m) XTEXPR_OPMASK = XTEXPR_OP_DIV \/
      Z.land (op m) XTEXPR_OPMASK = XTEXPR_OP_MOD)).
Proof.
  intros Hmx H. unfold xt_expr_eval in H.
  apply descend_Abort in H as [H|(m & l & r & Hin & H)]; trivial;
    [now left|].
  apply xt_expr_switch_Abort in H as (Hf & _ & Hsel).
  right. split; trivial. now exists m.
Qed.

(** "mark / ctmark" on a packet without conntrack entry *)
Lemma X18_witness :
  DivideError = OutOfBounds 1 \/
  (DivideError = DivideError /\
   exists m,
     In m [MX XTEXPR_OP_DIV XTEXPR_TYPE_NFMARK XTEXPR_TYPE_CTMARK] /\
     (Z.land (op m) XTEXPR_OPMASK = XTEXPR_OP_DIV \/
      Z.land (op m) XTEXPR_OPMASK = XTEXPR_OP_MOD)).
Proof.
  apply (X18_only_division_stops false skb_untracked
           [MX XTEXPR_OP_DIV XTEXPR_TYPE_NFMARK XTEXPR_TYPE_CTMARK] 0).
  - cbn. lia.
  - reflexivity.
Defined.

(** X19.  A call from inside the block, or from its end, never loads a node
    further than the one right after the last: where it reads out of
    bounds, the index is the length of the block. *)
Theorem X19_over_read_is_at_the_end big_endian skb blk mx i :
  (mx <= length blk)%nat ->
  xt_expr_eval big_endian skb blk mx = Abort (OutOfBounds i) ->
  i = length blk.
Proof.
  intros Hmx H. unfold xt_expr_eval in H.
  apply descend_Abort in H as [H|(m & l & r & _ & H)]; trivial.
  - now injection H.
  - apply xt_expr_switch_Abort in H as (Hf & _). discriminate.
Qed.

(** (1+2)+(3+4) without its last node *)
Lemma X19_witness :
  xt_expr_eval false skb_5_8_9 (firstn 2 blk_1234) 0 = Abort (OutOfBounds 2) /\
  2%nat = length (firstn 2 blk_1234).
Proof.
  split; [reflexivity|].
  apply (X19_over_read_is_at_the_end false skb_5_8_9 (firstn 2 blk_1234) 0 2).
  - cbn. lia.
  - reflexivity.
Defined.
